(** * Verification of the OpenAI Python client: retry-on-warmup wrapper,
      moderation facade and the Weights & Biases logger entry point.

    The development is a shallow embedding of
    - [openai/api_resources/chat_completion.py] (module [ChatCompletion]),
    - [openai/api_resources/moderation.py]      (module [Moderation]),
    - [openai/logger.py]                        (module [Logger]).

    Python code with side effects is written in a small state monad; every
    call that leaves the module (the dispatcher of the parent class, the
    clock, the logger, the job-record collaborator) is an oracle of the
    environment and leaves an event in a chronological trace. *)

From stdpp Require Import gmap strings list.
From Stdlib Require Import ZArith Lia.

#[local] Set Warnings "-register-all".

(** ** Exceptions and results *)

(** Modelled from the spec: the exception classes of [openai.error], which
    is not among the sources (section 7 lists them), together with the
    Python built-ins [ValueError] and [TypeError] raised by the modelled
    code itself. *)
Inductive exn_class :=
  | TryAgain
  | AuthenticationError
  | PermissionError
  | RateLimitError
  | InvalidRequestError
  | APIConnectionError
  | APIError
  | ValueError
  | TypeError
  | OtherException.

#[global] Instance exn_class_eq_dec : EqDecision exn_class.
Proof. solve_decision. Defined.

(** An exception object: its class and its message. *)
Record exn := Exn { exn_cls : exn_class; exn_msg : string }.

#[global] Instance exn_eq_dec : EqDecision exn.
Proof. solve_decision. Defined.

(** [except TryAgain as e] catches exactly the objects of that class. *)
Definition is_TryAgain (e : exn) : bool := bool_decide (exn_cls e = TryAgain).

(** How a Python call ends: it returns a value or raises. *)
Inductive outcome (A : Type) :=
  | Return (a : A)
  | Raise (e : exn).
Arguments Return {A} a.
Arguments Raise {A} e.

(** ** A state monad for effectful code *)

(** A computation over a world [W] that yields an [A]. *)
Definition M (W A : Type) : Type := W -> A * W.

Definition ret {W A} (a : A) : M W A := fun s => (a, s).

Definition bind {W A B} (c : M W A) (k : A -> M W B) : M W B :=
  fun s => let (a, s') := c s in k a s'.

Notation "'let!' x ':=' c 'in' k" := (bind c (fun x => k))
  (at level 10, x name, c at level 100, k at level 200).
Notation "'do!' c 'in' k" := (bind c (fun _ => k))
  (at level 10, c at level 100, k at level 200).

(** ** ChatCompletion: the retry-on-warmup wrapper *)

Module ChatCompletion.
Section Wrapper.

(** The payload types are left open: chat messages, the extra keyword
    arguments [**params] and the response object are only passed on. *)
Context {Msg Params Resp : Type}.

(** The keyword arguments that [create] forwards to [super().create];
    [timeout] is consumed by the wrapper and is not among them. *)
Record create_args := CreateArgs {
  api_key : option string;
  api_base : option string;
  api_type : option string;
  api_version : option string;
  request_id : option string;
  organization : option string;
  model : option string;
  messages : option (list Msg);
  params : Params;
}.

(** What the wrapper does to the outside world.  [EvSuspend] stands for
    a pause between attempts ([time.sleep] on the blocking path, an
    awaited sleep on the asynchronous one); it belongs to the alphabet so
    that traces can be checked for it. *)
Inductive event :=
  | EvTime                                  (* time.time() *)
  | EvCreate (a : create_args)              (* super().create(...) *)
  | EvAcreate (a : create_args)             (* await super().acreate(...) *)
  | EvLogInfo (msg : string) (e : exn)      (* util.log_info(msg, error=e) *)
  | EvSuspend.

Definition is_dispatch (ev : event) : bool :=
  match ev with EvCreate _ | EvAcreate _ => true | _ => false end.

Definition is_suspension (ev : event) : bool :=
  match ev with EvSuspend => true | _ => false end.

(** The environment: the outcome of the k-th invocation of the parent
    class's dispatcher (counting from 0) and the k-th reading of the
    clock.  Clock readings and the timeout are exact numbers in one
    common unit; the rounding of Python floats is not modelled. *)
Variable dispatch : nat -> create_args -> outcome Resp.
Variable clock : nat -> Z.

Record st := St {
  calls : nat;            (* dispatcher invocations made so far *)
  ticks : nat;            (* clock readings made so far *)
  trace : list event;     (* events, oldest first *)
}.

Definition init : st := St 0 0 [].

(** The mark each effect leaves on the state. *)
Definition clock_read (s : st) : st :=
  St (calls s) (S (ticks s)) (trace s ++ [EvTime]).
Definition dispatched (ev : event) (s : st) : st :=
  St (S (calls s)) (ticks s) (trace s ++ [ev]).
Definition logged (msg : string) (e : exn) (s : st) : st :=
  St (calls s) (ticks s) (trace s ++ [EvLogInfo msg e]).

Definition time_time : M st Z := fun s =>
  (clock (ticks s), clock_read s).

Definition super_create (a : create_args) : M st (outcome Resp) := fun s =>
  (dispatch (calls s) a, dispatched (EvCreate a) s).

Definition super_acreate (a : create_args) : M st (outcome Resp) := fun s =>
  (dispatch (calls s) a, dispatched (EvAcreate a) s).

Definition log_info (msg : string) (e : exn) : M st unit := fun s =>
  (tt, logged msg e s).

(** [timeout is not None and time.time() > start + timeout]; the clock is
    read only when a timeout was given. *)
Definition deadline_passed (start : Z) (timeout : option Z) : M st bool :=
  match timeout with
  | None => ret false
  | Some t => let! now := time_time in ret (now >? start + t)%Z
  end.

(** The [while True] loop of [create].  [fuel] bounds the number of
    iterations that are unfolded; [None] means the loop is still running
    after that many iterations. *)
Fixpoint create_loop (fuel : nat) (start : Z) (timeout : option Z)
    (a : create_args) : M st (option (outcome Resp)) :=
  match fuel with
  | O => ret None
  | S fuel' =>
      let! r := super_create a in
      match r with
      | Return v => ret (Some (Return v))
      | Raise e =>
          if is_TryAgain e then
            let! expired := deadline_passed start timeout in
            if expired : bool then ret (Some (Raise e))
            else
              do! log_info "Waiting for model to warm up" e in
              create_loop fuel' start timeout a
          else ret (Some (Raise e))
      end
  end.

Definition create (fuel : nat) (timeout : option Z) (a : create_args)
    : M st (option (outcome Resp)) :=
  let! start := time_time in
  create_loop fuel start timeout a.

(** The loop of [acreate]: the same text with [await super().acreate]. *)
Fixpoint acreate_loop (fuel : nat) (start : Z) (timeout : option Z)
    (a : create_args) : M st (option (outcome Resp)) :=
  match fuel with
  | O => ret None
  | S fuel' =>
      let! r := super_acreate a in
      match r with
      | Return v => ret (Some (Return v))
      | Raise e =>
          if is_TryAgain e then
            let! expired := deadline_passed start timeout in
            if expired : bool then ret (Some (Raise e))
            else
              do! log_info "Waiting for model to warm up" e in
              acreate_loop fuel' start timeout a
          else ret (Some (Raise e))
      end
  end.

Definition acreate (fuel : nat) (timeout : option Z) (a : create_args)
    : M st (option (outcome Resp)) :=
  let! start := time_time in
  acreate_loop fuel start timeout a.

(** *** Vocabulary of the statements *)

(** The dispatcher answers with [TryAgain]. *)
Definition raises_TryAgain (o : outcome Resp) : bool :=
  match o with
  | Raise e => is_TryAgain e
  | Return _ => false
  end.

(** Time elapsed since the recorded start, as observed by the i-th clock
    reading; reading 0 is the start itself and reading i (i > 0) is the
    deadline check that follows the i-th failed attempt. *)
Definition elapsed (i : nat) : Z := (clock i - clock 0)%Z.

(** Number of dispatcher invocations in a trace. *)
Definition dispatches (tr : list event) : nat :=
  length (List.filter is_dispatch tr).

(** [spins_from pending tr]: somewhere in [tr] the dispatcher is invoked
    again with no suspension since the invocation before; [pending]
    says whether an invocation is already waiting for its suspension. *)
Fixpoint spins_from (pending : bool) (tr : list event) : bool :=
  match tr with
  | [] => false
  | ev :: tr' =>
      if is_dispatch ev then pending || spins_from true tr'
      else if is_suspension ev then spins_from false tr'
      else spins_from pending tr'
  end.

(** A suspension separates any two consecutive dispatcher invocations. *)
Definition suspends_between_attempts (tr : list event) : bool :=
  negb (spins_from false tr).

(** Clock readings that [n] retries make: one each when a timeout is
    set, none otherwise. *)
Definition reads (timeout : option Z) (n : nat) : nat :=
  match timeout with
  | None => 0
  | Some _ => n
  end.

(** The asynchronous twin of an event. *)
Definition asyncify (ev : event) : event :=
  match ev with
  | EvCreate a => EvAcreate a
  | _ => ev
  end.

Definition asyncify_st (s : st) : st :=
  St (calls s) (ticks s) (asyncify <$> trace s).

End Wrapper.

Arguments create_args : clear implicits.
Arguments event : clear implicits.
Arguments st : clear implicits.

End ChatCompletion.


(** ** Moderation: request shaping and local model validation *)

Module Moderation.

Definition VALID_MODEL_NAMES : list string :=
  ["text-moderation-stable"; "text-moderation-latest"].

Definition get_url : string := "/moderations".

(** [cls(api_key=api_key)]: building the object touches no network. *)
Record instance := Instance { inst_api_key : option string }.

(** The f-string of the [ValueError], with the list printed by Python. *)
Definition invalid_model_message : string :=
  "The parameter model should be chosen from " ++
  "['text-moderation-stable', 'text-moderation-latest'] " ++
  "and it is default to be None.".

Definition _prepare_create (input : string) (model api_key : option string)
    : outcome (instance * gmap string string) :=
  if match model with
     | Some m => negb (bool_decide (m ∈ VALID_MODEL_NAMES))
     | None => false
     end
  then Raise (Exn ValueError invalid_model_message)
  else
    let instance := Instance api_key in
    let params : gmap string string := {[ "input" := input ]} in
    let params :=
      match model with
      | Some m => <[ "model" := m ]> params
      | None => params
      end in
    Return (instance, params).

(** Calls into the dispatcher of [OpenAIObject] (not among the sources):
    [request] on the blocking path, [arequest] on the asynchronous one. *)
Inductive event :=
  | EvRequest (self : instance) (method url : string)
      (params : gmap string string)
  | EvArequest (self : instance) (method url : string)
      (params : gmap string string).

Section Facade.

Context {Resp : Type}.

(** Outcome of the k-th request handed to the dispatcher. *)
Variable send :
  nat -> instance -> string -> string -> gmap string string -> outcome Resp.

Definition request (self : instance) (method url : string)
    (params : gmap string string) : M (list event) (outcome Resp) :=
  fun tr => (send (length tr) self method url params,
             tr ++ [EvRequest self method url params]).

(** The coroutine of [arequest], run to completion by the awaiting
    caller. *)
Definition arequest (self : instance) (method url : string)
    (params : gmap string string) : M (list event) (outcome Resp) :=
  fun tr => (send (length tr) self method url params,
             tr ++ [EvArequest self method url params]).

Definition create (input : string) (model api_key : option string)
    : M (list event) (outcome Resp) :=
  match _prepare_create input model api_key with
  | Raise e => ret (Raise e)
  | Return (instance, params) => request instance "post" get_url params
  end.

Definition acreate (input : string) (model api_key : option string)
    : M (list event) (outcome Resp) :=
  match _prepare_create input model api_key with
  | Raise e => ret (Raise e)
  | Return (instance, params) => arequest instance "post" get_url params
  end.

End Facade.

(** The request a dispatcher event carries, whichever path issued it. *)
Definition request_of (ev : event)
    : instance * string * string * gmap string string :=
  match ev with
  | EvRequest i m u p | EvArequest i m u p => (i, m, u, p)
  end.

End Moderation.

(** ** Logger.sync: which fine-tune jobs are logged *)

Module Logger.

(** Decoded JSON, the shape of the records of the job collaborator. *)
Inductive json :=
  | JNull
  | JBool (b : bool)
  | JNum (z : Z)
  | JStr (s : string)
  | JArr (l : list json)
  | JObj (m : gmap string json).

(** Python truth value of the [id] argument ([None] or a string). *)
Definition truthy (id : option string) : bool :=
  match id with
  | Some s => negb (bool_decide (s = ""))
  | None => false
  end.

(** [d.get(key) is None]: the key is absent or bound to [None]. *)
Definition get_is_None (d : gmap string json) (key : string) : bool :=
  match d !! key with
  | None | Some JNull => true
  | Some _ => false
  end.

(** Index at which [seq[start:]] begins, for a sequence of [len] items. *)
Definition slice_start (len : nat) (start : option Z) : nat :=
  match start with
  | None => 0
  | Some z =>
      if (z <? 0)%Z then Z.to_nat (Z.max (Z.of_nat len + z) 0)
      else Z.to_nat (Z.min z (Z.of_nat len))
  end.

Fixpoint chars (s : string) : list json :=
  match s with
  | EmptyString => []
  | String c s' => JStr (String c EmptyString) :: chars s'
  end.

(** The items that a loop over [v[start:]] visits.  A list yields its
    elements and a string its characters (bytes here); the other values
    do not accept a slice as subscript. *)
Definition slice_items (v : json) (start : option Z) : outcome (list json) :=
  match v with
  | JArr l => Return (drop (slice_start (length l) start) l)
  | JStr s =>
      let cs := chars s in Return (drop (slice_start (length cs) start) cs)
  | _ => Raise (Exn TypeError "object is not subscriptable")
  end.

Definition no_jobs_message : string := "No fine-tune jobs have been retrieved".
Definition no_new_message : string := "No new successful fine-tune were found".
Definition completed_message : string := "🎉 wandb log completed successfully".

Section Sync.

(** Extra keyword arguments handed on to [wandb.init]. *)
Context {Kw : Type}.

Inductive event :=
  | EvRetrieve (id : string)                  (* FineTune.retrieve(id=id) *)
  | EvList                                    (* FineTune.list() *)
  | EvPrint (msg : string)                    (* print(msg) *)
  | EvLogFineTune (fine_tune : json) (project : string)
      (entity : option string) (force show_warnings : bool) (kw : Kw).

(** Whether [import wandb] succeeded when the module was loaded. *)
Variable WANDB_AVAILABLE : bool.

(** The job-record collaborator. *)
Variable FineTune_retrieve : string -> outcome (gmap string json).
Variable FineTune_list : outcome (gmap string json).

(** [cls._log_fine_tune]: its body talks to wandb, pandas and the file
    collaborator only; [sync] looks at nothing but the truth value of
    what the k-th call returns ([None] or [True]), or at its
    exception. *)
Variable log_fine_tune_result :
  nat -> json -> string -> option string -> bool -> bool -> Kw -> outcome bool.

Definition is_log (ev : event) : bool :=
  match ev with EvLogFineTune _ _ _ _ _ _ => true | _ => false end.

Definition retrieve (id : string) : M (list event) (outcome (gmap string json)) :=
  fun tr => (FineTune_retrieve id, tr ++ [EvRetrieve id]).

Definition list_jobs : M (list event) (outcome (gmap string json)) :=
  fun tr => (FineTune_list, tr ++ [EvList]).

Definition print (msg : string) : M (list event) unit :=
  fun tr => (tt, tr ++ [EvPrint msg]).

Definition _log_fine_tune (fine_tune : json) (project : string)
    (entity : option string) (force show_warnings : bool) (kw : Kw)
    : M (list event) (outcome bool) :=
  fun tr =>
    (log_fine_tune_result (length (List.filter is_log tr))
       fine_tune project entity force show_warnings kw,
     tr ++ [EvLogFineTune fine_tune project entity force show_warnings kw]).

(** The list comprehension over [fine_tunes]: calls in order, and the
    first exception ends it. *)
Fixpoint log_all (fine_tunes : list json) (project : string)
    (entity : option string) (force show_warnings : bool) (kw : Kw)
    : M (list event) (outcome (list bool)) :=
  match fine_tunes with
  | [] => ret (Return [])
  | fine_tune :: rest =>
      let! r := _log_fine_tune fine_tune project entity force show_warnings kw in
      match r with
      | Raise e => ret (Raise e)
      | Return b =>
          let! rs := log_all rest project entity force show_warnings kw in
          match rs with
          | Raise e => ret (Raise e)
          | Return bs => ret (Return (b :: bs))
          end
      end
  end.

(** The [else] branch of [if id:].  [Return None] is its early
    [return]; [Return (Some l)] carries the jobs to log. *)
Definition select_listed (n_jobs : option Z)
    : M (list event) (outcome (option (list json))) :=
  let! r := list_jobs in
  match r with
  | Raise e => ret (Raise e)
  | Return fine_tunes =>
      if bool_decide (fine_tunes = ∅) || get_is_None fine_tunes "data" then
        do! print no_jobs_message in
        ret (Return None)
      else
        match slice_items (default JNull (fine_tunes !! "data"))
                (Z.opp <$> n_jobs) with
        | Raise e => ret (Raise e)
        | Return l => ret (Return (Some l))
        end
  end.

(** The [if id: ... else: ...] block; in the first branch [id] is a
    non-empty string. *)
Definition select_jobs (id : option string) (n_jobs : option Z)
    : M (list event) (outcome (option (list json))) :=
  if truthy id then
    let! r := retrieve (default "" id) in
    match r with
    | Raise e => ret (Raise e)
    | Return fine_tune =>
        let fine_tune := delete "events" fine_tune in
        ret (Return (Some [JObj fine_tune]))
    end
  else select_listed n_jobs.

Definition sync (id : option string) (n_jobs : option Z) (project : string)
    (entity : option string) (force : bool) (kwargs_wandb_init : Kw)
    : M (list event) (outcome (option string)) :=
  if negb WANDB_AVAILABLE then ret (Return None)
  else
    let! sel := select_jobs id n_jobs in
    match sel with
    | Raise e => ret (Raise e)
    | Return None => ret (Return None)
    | Return (Some fine_tunes) =>
        let show_warnings :=
          negb (bool_decide (id = None) && bool_decide (n_jobs = None)) in
        let! logged :=
          log_all fine_tunes project entity force show_warnings
            kwargs_wandb_init in
        match logged with
        | Raise e => ret (Raise e)
        | Return fine_tune_logged =>
            do! (if negb show_warnings && negb (existsb (fun b => b) fine_tune_logged)
                 then print no_new_message else ret tt) in
            ret (Return (Some completed_message))
        end
    end.

End Sync.

End Logger.

(** ** Concrete inputs used to exercise the statements *)

Module Examples.

Definition chat_args : ChatCompletion.create_args string unit :=
  ChatCompletion.CreateArgs None None None None None None
    (Some "gpt-3.5-turbo") (Some ["Hello!"]) tt.

Definition warming : exn := Exn TryAgain "The model is warming up".
Definition denied : exn := Exn AuthenticationError "Incorrect API key".

(** A dispatcher that is cold for its first [n] invocations. *)
Definition warm_after (n : nat) (k : nat)
    (a : ChatCompletion.create_args string unit) : outcome string :=
  if k <? n then Raise warming else Return "chat.completion".

Definition always_warming (k : nat)
    (a : ChatCompletion.create_args string unit) : outcome string :=
  Raise warming.

Definition unauthorized (k : nat)
    (a : ChatCompletion.create_args string unit) : outcome string :=
  Raise denied.

(** A clock that advances ten units between readings. *)
Definition clock10 (k : nat) : Z := (10 * Z.of_nat k)%Z.

(** A moderation endpoint that answers every request. *)
Definition answering (k : nat) (self : Moderation.instance)
    (method url : string) (params : gmap string string) : outcome string :=
  Return "moderation".

(** Job listings: without a data field, and with an empty data list. *)
Definition listing_without_data : gmap string Logger.json :=
  {[ "object" := Logger.JStr "list" ]}.
Definition listing_no_jobs : gmap string Logger.json :=
  {[ "object" := Logger.JStr "list"; "data" := Logger.JArr [] ]}.

Definition never_retrieved (id : string) : outcome (gmap string Logger.json) :=
  Raise (Exn InvalidRequestError "No such fine-tune").

Definition always_logs (k : nat) (fine_tune : Logger.json) (project : string)
    (entity : option string) (force show_warnings : bool) (kw : unit)
    : outcome bool :=
  Return true.

End Examples.

From stdpp Require Import pretty.

(** ** More vocabulary for the runs of the retry wrapper *)

Module RetryTrace.
Import ChatCompletion.

Section Vocabulary.

Context {Msg Params Resp : Type}.

(** The diagnostics handed to [util.log_info], oldest first. *)
Fixpoint log_lines (tr : list (event Msg Params)) : list (string * exn) :=
  match tr with
  | [] => []
  | EvLogInfo msg e :: tr' => (msg, e) :: log_lines tr'
  | _ :: tr' => log_lines tr'
  end.

(** The dispatcher invocations of a trace, oldest first. *)
Definition dispatch_events (tr : list (event Msg Params))
    : list (event Msg Params) :=
  List.filter is_dispatch tr.

(** What the dispatcher answers to the [n] invocations that start with
    invocation number [first]. *)
Definition answers (dispatch : nat -> create_args Msg Params -> outcome Resp)
    (a : create_args Msg Params) (first n : nat) : list (outcome Resp) :=
  (fun i => dispatch i a) <$> seq first n.

(** 1 for a run that has ended, 0 for one that is still in the loop. *)
Definition ended (r : option (outcome Resp)) : nat :=
  match r with
  | Some _ => 1
  | None => 0
  end.

(** The deadline check of the handler as a state change: the clock is read
    when a timeout is set. *)
Definition checked (timeout : option Z) (s : st Msg Params) : st Msg Params :=
  match timeout with
  | Some _ => clock_read s
  | None => s
  end.

(** The state in which the next iteration starts after the [TryAgain] [e]
    of this one was caught, found in time and logged. *)
Definition retried (ev : event Msg Params) (timeout : option Z) (e : exn)
    (s : st Msg Params) : st Msg Params :=
  logged "Waiting for model to warm up" e (checked timeout (dispatched ev s)).

End Vocabulary.

End RetryTrace.

(** ** More vocabulary for the runs of Logger.sync *)

Module SyncTrace.
Import Logger.

Section Vocabulary.

Context {Kw : Type}.
Variable log_fine_tune_result :
  nat -> json -> string -> option string -> bool -> bool -> Kw -> outcome bool.

(** Number of [_log_fine_tune] calls recorded in a trace. *)
Definition nlogs (tr : list (event (Kw := Kw))) : nat :=
  length (List.filter is_log tr).

(** What [_log_fine_tune] answers when it is called on [jobs] one after
    the other, the first call being call number [c]. *)
Fixpoint log_answers (c : nat) (jobs : list json) (project : string)
    (entity : option string) (force show_warnings : bool) (kw : Kw)
    : list (outcome bool) :=
  match jobs with
  | [] => []
  | job :: rest =>
      log_fine_tune_result c job project entity force show_warnings kw
      :: log_answers (S c) rest project entity force show_warnings kw
  end.

(** The events of those calls. *)
Definition log_events (jobs : list json) (project : string)
    (entity : option string) (force show_warnings : bool) (kw : Kw)
    : list (event (Kw := Kw)) :=
  (fun job => EvLogFineTune job project entity force show_warnings kw) <$> jobs.

(** [show_warnings] as [sync] computes it. *)
Definition show_warnings_of (id : option string) (n_jobs : option Z) : bool :=
  negb (bool_decide (id = None) && bool_decide (n_jobs = None)).

End Vocabulary.

End SyncTrace.

(** ** Python operations on decoded JSON *)

Module Py.
Import Logger.

(** Exceptions of the built-in operations.  [KeyError] and [IndexError]
    have no class of their own in [exn_class]; they are told apart by
    their text. *)
Definition KeyError (key : string) : exn :=
  Exn OtherException ("KeyError: " ++ key).
Definition IndexError : exn :=
  Exn OtherException "IndexError: index out of range".
Definition not_subscriptable : exn :=
  Exn TypeError "object is not subscriptable".
Definition no_len : exn :=
  Exn TypeError "object has no len()".
Definition bad_index : exn :=
  Exn TypeError "indices must be integers".

(** Truth value of a value: [None], [False], zero and the empty string,
    list and dictionary are false. *)
Definition truthy (v : json) : bool :=
  match v with
  | JNull => false
  | JBool b => b
  | JNum z => negb (z =? 0)%Z
  | JStr s => negb (bool_decide (s = ""))
  | JArr l => negb (bool_decide (l = []))
  | JObj m => negb (bool_decide (m = ∅))
  end.

(** [len(v)]. *)
Definition len (v : json) : outcome nat :=
  match v with
  | JStr s => Return (String.length s)
  | JArr l => Return (length l)
  | JObj m => Return (size m)
  | JNull | JBool _ | JNum _ => Raise no_len
  end.

(** [v[0]]: the first element of a list, the first character of a string
    (a byte here); a dictionary with string keys has no key [0]. *)
Definition first (v : json) : outcome json :=
  match v with
  | JArr (x :: _) => Return x
  | JStr (String c _) => Return (JStr (String c EmptyString))
  | JArr [] | JStr EmptyString => Raise IndexError
  | JObj _ => Raise (KeyError "0")
  | JNull | JBool _ | JNum _ => Raise not_subscriptable
  end.

(** [v[key]] for a string [key]. *)
Definition getitem (v : json) (key : string) : outcome json :=
  match v with
  | JObj m =>
      match m !! key with
      | Some x => Return x
      | None => Raise (KeyError key)
      end
  | JStr _ | JArr _ => Raise bad_index
  | JNull | JBool _ | JNum _ => Raise not_subscriptable
  end.

(** [d.get(key)] on a dictionary: [None] when the key is missing. *)
Definition get (d : gmap string json) (key : string) : json :=
  default JNull (d !! key).

(** [d[key][0] if d.get(key) and len(d[key]) else None], and also the
    test [d.get(key) and len(d[key])] on its own: [Return None] when the
    test is false, the first element when it is true. *)
Definition first_if_any (d : gmap string json) (key : string)
    : outcome (option json) :=
  if truthy (get d key) then
    match len (get d key) with
    | Raise e => Raise e
    | Return n =>
        if (n =? 0)%nat then Return None
        else
          match first (get d key) with
          | Raise e => Raise e
          | Return x => Return (Some x)
          end
    end
  else Return None.

End Py.

(** ** Logger._get_config *)

Module LoggerConfig.
Import Logger.

Definition file_keys : list string :=
  ["training_files"; "validation_files"; "result_files"].

(** The body of the [for] loop for one key. *)
Definition flatten_key (config : gmap string json) (key : string)
    : outcome (gmap string json) :=
  match Py.first_if_any config key with
  | Raise e => Raise e
  | Return None => Return config
  | Return (Some x) => Return (<[ key := x ]> config)
  end.

Fixpoint flatten_keys (keys : list string) (config : gmap string json)
    : outcome (gmap string json) :=
  match keys with
  | [] => Return config
  | key :: rest =>
      match flatten_key config key with
      | Raise e => Raise e
      | Return config' => flatten_keys rest config'
      end
  end.

(** [config = dict(fine_tune)], then the loop over the three keys. *)
Definition _get_config (fine_tune : gmap string json)
    : outcome (gmap string json) :=
  let config := fine_tune in
  flatten_keys file_keys config.

(** *** Vocabulary of the statements *)

(** A file field as the API sends it: missing, [None] or a list. *)
Definition list_or_missing (field : option json) : bool :=
  match field with
  | None | Some JNull | Some (JArr _) => true
  | Some _ => false
  end.

(** A non-empty list gives way to its first element. *)
Definition flattened (field : option json) : option json :=
  match field with
  | Some (JArr (x :: _)) => Some x
  | _ => field
  end.

End LoggerConfig.

(** ** Logger: the wandb session and the decision to log a job *)

Module LoggerRun.
Import Logger.

(** What the code reads from a run object of the wandb API:
    [wandb_run.summary.get("status")] and [wandb_run.url].  Such an
    object is true in a condition. *)
Record run := Run {
  run_status : json;
  run_url : string;
}.

(** [v == "succeeded"]. *)
Definition is_succeeded (v : json) : bool :=
  match v with
  | JStr s => bool_decide (s = "succeeded")
  | _ => false
  end.

(** The look-up found a run whose status is ["succeeded"]. *)
Definition found_succeeded (found : option run) : bool :=
  match found with
  | Some wandb_run => is_succeeded (run_status wandb_run)
  | None => false
  end.

(** The double quote, for the messages that contain one. *)
Definition dquote : string := String (Ascii.ascii_of_nat 34) EmptyString.

Section Wandb.

(** The API handle of wandb and the keyword arguments for [wandb.init]
    are passed on only. *)
Context {Api Kw : Type}.

(** [str(v)] inside the f-strings: scalars are printed here, and the
    rendering of lists and dictionaries is left to [render]. *)
Variable render : json -> string.

Definition str (v : json) : string :=
  match v with
  | JNull => "None"
  | JBool true => "True"
  | JBool false => "False"
  | JNum z => pretty z
  | JStr s => s
  | JArr _ | JObj _ => render v
  end.

Inductive event :=
  | EvLogin                                   (* wandb.login() *)
  | EvApi                                     (* wandb.Api() *)
  | EvRun (api : Api) (run_path : string)     (* cls._wandb_api.run(run_path) *)
  | EvPrint (msg : string)                    (* print(msg) *)
  | EvUpload (fine_tune : gmap string json) (project : string)
      (entity : option string) (kw : Kw).     (* from "retrieve results" on *)

Definition is_print (ev : event) : bool :=
  match ev with EvPrint _ => true | _ => false end.

(** The exchanges with wandb in a trace: everything but the prints. *)
Definition exchanges (tr : list event) : list event :=
  List.filter (fun ev => negb (is_print ev)) tr.

(** The class attributes [_logged_in] and [_wandb_api], and the trace. *)
Record st := St {
  _logged_in : bool;
  _wandb_api : option Api;
  trace : list event;
}.

(** The class as it is defined: not logged in, no API handle. *)
Definition init : st := St false None [].

(** The environment, asked at the k-th exchange: the truth value of what
    [wandb.login()] returns, the handle [wandb.Api()] builds, the run found
    under a path, and how the upload part of [_log_fine_tune] ends. *)
Variable wandb_login : nat -> outcome bool.
Variable wandb_Api : nat -> outcome Api.
Variable api_run : nat -> Api -> string -> outcome run.
Variable upload_result :
  nat -> gmap string json -> string -> option string -> Kw -> outcome unit.

Definition now (s : st) : nat := length (exchanges (trace s)).

Definition record (ev : event) (s : st) : st :=
  St (_logged_in s) (_wandb_api s) (trace s ++ [ev]).

Definition login : M st (outcome bool) := fun s =>
  (wandb_login (now s), record EvLogin s).

Definition new_api : M st (outcome Api) := fun s =>
  (wandb_Api (now s), record EvApi s).

Definition run_of (api : Api) (run_path : string) : M st (outcome run) :=
  fun s => (api_run (now s) api run_path, record (EvRun api run_path) s).

Definition print (msg : string) : M st unit := fun s =>
  (tt, record (EvPrint msg) s).

Definition upload (fine_tune : gmap string json) (project : string)
    (entity : option string) (kw : Kw) : M st (outcome unit) := fun s =>
  (upload_result (now s) fine_tune project entity kw,
   record (EvUpload fine_tune project entity kw) s).

Definition set_logged_in : M st unit := fun s =>
  (tt, St true (_wandb_api s) (trace s)).

Definition set_wandb_api (api : Api) : M st unit := fun s =>
  (tt, St (_logged_in s) (Some api) (trace s)).

Definition get_logged_in : M st bool := fun s => (_logged_in s, s).
Definition get_wandb_api : M st (option Api) := fun s => (_wandb_api s, s).

Definition login_required : exn :=
  Exn OtherException "You need to log in to wandb".

Definition _ensure_logged_in : M st (outcome unit) :=
  let! logged_in := get_logged_in in
  if negb logged_in then
    let! r := login in
    match r with
    | Raise e => ret (Raise e)
    | Return true => do! set_logged_in in ret (Return tt)
    | Return false => ret (Raise login_required)
    end
  else ret (Return tt).

(** [Return None] stands for the [False] of the handler. *)
Definition _get_wandb_run (run_path : string) : M st (outcome (option run)) :=
  let! r := _ensure_logged_in in
  match r with
  | Raise e => ret (Raise e)
  | Return _ =>
      let! cached := get_wandb_api in
      let! api :=
        match cached with
        | Some api => ret (Return api)
        | None =>
            let! a := new_api in
            match a with
            | Raise e => ret (Raise e)
            | Return api => do! set_wandb_api api in ret (Return api)
            end
        end in
      match api with
      | Raise _ => ret (Return None)
      | Return api =>
          let! found := run_of api run_path in
          match found with
          | Raise _ => ret (Return None)
          | Return wandb_run => ret (Return (Some wandb_run))
          end
      end
  end.

(** The messages of [_log_fine_tune]. *)
Definition not_succeeded_message (fine_tune_id status : json) : string :=
  "Fine-tune job " ++ str fine_tune_id ++ " has the status " ++ dquote
  ++ str status ++ dquote ++ " and will not be logged".
Definition already_logged_message (fine_tune_id : json) (url : string) : string :=
  "Fine-tune job " ++ str fine_tune_id
  ++ " has already been logged successfully at " ++ url.
Definition use_force_message : string :=
  "Use " ++ dquote ++ "--force" ++ dquote ++ " in the CLI or " ++ dquote
  ++ "force=True" ++ dquote
  ++ " in python if you want to overwrite previous run".
Definition unfinished_run_message (fine_tune_id : json) : string :=
  "A run for fine-tune job " ++ str fine_tune_id
  ++ " was previously created but didn't end successfully".
Definition new_run_message (fine_tune_id : json) : string :=
  "A new wandb run will be created for fine-tune job " ++ str fine_tune_id
  ++ " and previous run will be overwritten".

(** [f"{project}/{fine_tune_id}"], with [f"{entity}/..."] in front when
    an entity is given. *)
Definition run_path_of (project : string) (entity : option string)
    (fine_tune_id : json) : string :=
  let run_path := (project ++ "/" ++ str fine_tune_id)%string in
  match entity with
  | Some entity => (entity ++ "/" ++ run_path)%string
  | None => run_path
  end.

(** The prints under [if show_warnings:] for a run that was found. *)
Definition warn_about_run (fine_tune_id : json) (wandb_run : run)
    (force : bool) : M st unit :=
  let wandb_status := run_status wandb_run in
  do! (if is_succeeded wandb_status then
         do! print (already_logged_message fine_tune_id (run_url wandb_run)) in
         if negb force then print use_force_message else ret tt
       else print (unfinished_run_message fine_tune_id)) in
  if negb (is_succeeded wandb_status) || force
  then print (new_run_message fine_tune_id)
  else ret tt.

(** [_log_fine_tune]; the value is the truth value of what it returns
    ([None] or [True]).  Everything from [# retrieve results] to
    [wandb.finish()] is the single step [upload]. *)
Definition _log_fine_tune (fine_tune : gmap string json) (project : string)
    (entity : option string) (force show_warnings : bool) (kw : Kw)
    : M st (outcome bool) :=
  let fine_tune_id := Py.get fine_tune "id" in
  let status := Py.get fine_tune "status" in
  if show_warnings && negb (is_succeeded status) then
    do! print (not_succeeded_message fine_tune_id status) in
    ret (Return false)
  else
    let run_path := run_path_of project entity fine_tune_id in
    let! r := _get_wandb_run run_path in
    match r with
    | Raise e => ret (Raise e)
    | Return found =>
        let! logged_already :=
          match found with
          | Some wandb_run =>
              do! (if show_warnings
                   then warn_about_run fine_tune_id wandb_run force
                   else ret tt) in
              ret (is_succeeded (run_status wandb_run))
          | None => ret false
          end in
        if logged_already : bool then ret (Return false)
        else
          let! u := upload fine_tune project entity kw in
          match u with
          | Raise e => ret (Raise e)
          | Return _ => ret (Return true)
          end
    end.

End Wandb.

Arguments event : clear implicits.
Arguments st : clear implicits.

End LoggerRun.

(** ** Logger: the artifacts of a job *)

Module LoggerArtifacts.
Import Logger.

Section Artifacts.

(** The rendering of lists and dictionaries by [str], and [Path(name).name]
    and [Path(name).stem] of the standard library. *)
Variable render : json -> string.
Variable path_name : string -> string.
Variable path_stem : string -> string.

Inductive event :=
  | EvDownload (file_id : json)
      (* File.download(id=file_id).decode("utf-8") *)
  | EvPrint (msg : string)
  | EvArtifact (name type : string) (metadata : json)
      (* wandb.Artifact(name, type=type, metadata=metadata) *)
  | EvWriteFile (filename content : string)
      (* with artifact.new_file(filename, mode="w") as f: f.write(content) *)
  | EvMakeTable (content : string)
      (* cls._make_table(content) *)
  | EvAddTable (stem : string)
      (* artifact.add(table, stem) *)
  | EvUseArtifact (aliases : list json)
      (* wandb.run.use_artifact(artifact, aliases=aliases) *)
  | EvDumpJobDetails (fine_tune : gmap string json)
      (* with artifact.new_file("job_details.json") as f:
           json.dump(fine_tune, f, indent=2) *)
  | EvLogArtifact (aliases : list json).
      (* wandb.run.log_artifact(artifact, aliases=aliases) *)

(** The events that belong to the job-details artifact. *)
Definition is_job_details (ev : event) : bool :=
  match ev with
  | EvArtifact "job_details" _ _ | EvDumpJobDetails _ | EvLogArtifact _ => true
  | _ => false
  end.

(** The environment: the decoded content of a downloaded file, and how
    each call into wandb or pandas ends; both are asked with the number
    of events so far. *)
Variable downloaded : nat -> json -> outcome string.
Variable answer : nat -> event -> outcome unit.

Definition download (file_id : json) : M (list event) (outcome string) :=
  fun tr => (downloaded (length tr) file_id, tr ++ [EvDownload file_id]).

Definition perform (ev : event) : M (list event) (outcome unit) :=
  fun tr => (answer (length tr) ev, tr ++ [ev]).

Definition print (msg : string) : M (list event) unit :=
  fun tr => (tt, tr ++ [EvPrint msg]).

(** [Path(v)] takes a string. *)
Definition path_of (v : json) : outcome string :=
  match v with
  | JStr s => Return s
  | _ => Raise (Exn TypeError "expected str, bytes or os.PathLike object")
  end.

Definition not_retrieved_message (file_id : json) : string :=
  "File " ++ LoggerRun.str render file_id ++ " could not be retrieved. Make sure you are "
  ++ "allowed to download training/validation files".
Definition not_json_message (file_id : json) : string :=
  "File " ++ LoggerRun.str render file_id
  ++ " could not be read as a valid JSON file".

(** The [try] around the table: any exception of [_make_table] or of
    [artifact.add] is answered by a print. *)
Definition add_table (file_id : json) (file_content stem : string)
    : M (list event) unit :=
  let! table := perform (EvMakeTable file_content) in
  match table with
  | Raise _ => print (not_json_message file_id)
  | Return _ =>
      let! added := perform (EvAddTable stem) in
      match added with
      | Raise _ => print (not_json_message file_id)
      | Return _ => ret tt
      end
  end.

Definition _log_artifact_inputs (file : json) (prefix artifact_type : string)
    : M (list event) (outcome unit) :=
  match Py.getitem file "id" with
  | Raise e => ret (Raise e)
  | Return file_id =>
      match Py.getitem file "filename" with
      | Raise e => ret (Raise e)
      | Return name =>
          match path_of name with
          | Raise e => ret (Raise e)
          | Return name =>
              let filename := path_name name in
              let stem := path_stem name in
              let! got := download file_id in
              match got with
              | Raise _ =>
                  do! print (not_retrieved_message file_id) in
                  ret (Return tt)
              | Return file_content =>
                  let! artifact :=
                    perform (EvArtifact (prefix ++ "-" ++ filename)
                               artifact_type file) in
                  match artifact with
                  | Raise e => ret (Raise e)
                  | Return _ =>
                      let! written :=
                        perform (EvWriteFile filename file_content) in
                      match written with
                      | Raise e => ret (Raise e)
                      | Return _ =>
                          do! add_table file_id file_content stem in
                          perform (EvUseArtifact [file_id; JStr "latest"])
                      end
                  end
              end
          end
      end
  end.

(** [d[key][0] if d.get(key) and len(d[key]) else None]. *)
Definition first_file (fine_tune : gmap string json) (key : string)
    : outcome json :=
  match Py.first_if_any fine_tune key with
  | Raise e => Raise e
  | Return file => Return (default JNull file)
  end.

Definition _log_artifacts (fine_tune : gmap string json)
    : M (list event) (outcome unit) :=
  match first_file fine_tune "training_files" with
  | Raise e => ret (Raise e)
  | Return training_file =>
      match first_file fine_tune "validation_files" with
      | Raise e => ret (Raise e)
      | Return validation_file =>
          let! r := _log_artifact_inputs training_file "train"
                      "training_files" in
          match r with
          | Raise e => ret (Raise e)
          | Return _ =>
              let! r := _log_artifact_inputs validation_file "valid"
                          "validation_files" in
              match r with
              | Raise e => ret (Raise e)
              | Return _ =>
                  let fine_tune_id := Py.get fine_tune "id" in
                  let! artifact :=
                    perform (EvArtifact "job_details" "job_details"
                               (JObj fine_tune)) in
                  match artifact with
                  | Raise e => ret (Raise e)
                  | Return _ =>
                      let! dumped := perform (EvDumpJobDetails fine_tune) in
                      match dumped with
                      | Raise e => ret (Raise e)
                      | Return _ =>
                          perform (EvLogArtifact [fine_tune_id; JStr "latest"])
                      end
                  end
              end
          end
      end
  end.

End Artifacts.

End LoggerArtifacts.

(** ** More concrete inputs *)

Module MoreExamples.
Import Logger.

(** Job records of the collaborator. *)
Definition job (id status : string) : gmap string json :=
  {[ "id" := JStr id; "status" := JStr status ]}.

Definition job_with_events : gmap string json :=
  <[ "events" := JArr [JStr "created"; JStr "done"] ]> (job "ft-1" "succeeded").

Definition three_jobs : list json :=
  [JObj (job "ft-1" "succeeded"); JObj (job "ft-2" "failed");
   JObj (job "ft-3" "succeeded")].

Definition listing_three : gmap string json :=
  {[ "object" := JStr "list"; "data" := JArr three_jobs ]}.

Definition retrieved (id : string) : outcome (gmap string json) :=
  Return job_with_events.

Definition unreachable : exn := Exn APIConnectionError "Connection refused".

(** A [_log_fine_tune] that fails on its second call. *)
Definition fails_second (k : nat) (fine_tune : json) (project : string)
    (entity : option string) (force show_warnings : bool) (kw : unit)
    : outcome bool :=
  if (k =? 1)%nat then Raise unreachable else Return true.

(** A record with one training file, no validation file and no result. *)
Definition train_file : json :=
  JObj {[ "id" := JStr "file-1"; "filename" := JStr "train.jsonl" ]}.

Definition half_job : gmap string json :=
  {[ "id" := JStr "ft-9";
     "training_files" := JArr [train_file; JNull];
     "validation_files" := JArr [] ]}.

Definition half_job_config : gmap string json :=
  {[ "id" := JStr "ft-9";
     "training_files" := train_file;
     "validation_files" := JArr [] ]}.

(** A wandb that lets everybody in and knows one successful run. *)
Definition render (v : json) : string := "<object>".
Definition lets_in (k : nat) : outcome bool := Return true.
Definition keeps_out (k : nat) : outcome bool := Return false.
Definition gives_api (k : nat) : outcome unit := Return tt.
Definition old_run : LoggerRun.run :=
  LoggerRun.Run (JStr "succeeded") "https://wandb.ai/me/GPT-3/runs/ft-1".
Definition finds_old_run (k : nat) (api : unit) (run_path : string)
    : outcome LoggerRun.run :=
  Return old_run.
Definition uploads (k : nat) (fine_tune : gmap string json) (project : string)
    (entity : option string) (kw : unit) : outcome unit :=
  Return tt.

(** Files: a download that works and one that does not, a wandb that
    accepts everything and one in which no table can be built. *)
Definition path_name (name : string) : string := name.
Definition path_stem (name : string) : string := "train".
Definition downloads (k : nat) (file_id : json) : outcome string :=
  Return "{}".
Definition download_denied (k : nat) (file_id : json) : outcome string :=
  Raise (Exn PermissionError "Not allowed to download files").
Definition accepts (k : nat) (ev : LoggerArtifacts.event) : outcome unit :=
  Return tt.
Definition no_table (k : nat) (ev : LoggerArtifacts.event) : outcome unit :=
  match ev with
  | LoggerArtifacts.EvMakeTable _ => Raise (Exn ValueError "Expected object")
  | _ => Return tt
  end.

End MoreExamples.

(** * Properties of the retry-on-warmup wrapper *)

Module RetryFacts.
Import ChatCompletion.

Section Facts.

Context {Msg Params Resp : Type}.
Variable dispatch : nat -> create_args Msg Params -> outcome Resp.
Variable clock : nat -> Z.

#[local] Abbreviation args := (create_args Msg Params).
#[local] Abbreviation state := (st Msg Params).
#[local] Abbreviation create_loop := (ChatCompletion.create_loop dispatch clock).
#[local] Abbreviation acreate_loop := (ChatCompletion.acreate_loop dispatch clock).
#[local] Abbreviation create := (ChatCompletion.create dispatch clock).
#[local] Abbreviation acreate := (ChatCompletion.acreate dispatch clock).
#[local] Abbreviation warmup := "Waiting for model to warm up".

(** The state in which the loop is entered from [init]. *)
#[local] Abbreviation started := (St 0 1 [EvTime] : state).

(** One iteration of the loop of [create], by cases on what the
    dispatcher answers and on the deadline. *)
Lemma create_loop_S fuel start timeout (a : args) (s : state) :
  create_loop (S fuel) start timeout a s =
  let s1 := dispatched (EvCreate a) s in
  match dispatch (calls s) a with
  | Return v => (Some (Return v), s1)
  | Raise e =>
      if is_TryAgain e then
        match timeout with
        | None => create_loop fuel start timeout a (logged warmup e s1)
        | Some t =>
            if (clock (ticks s) >? start + t)%Z
            then (Some (Raise e), clock_read s1)
            else create_loop fuel start timeout a
                   (logged warmup e (clock_read s1))
        end
      else (Some (Raise e), s1)
  end.
Proof.
  cbn [ChatCompletion.create_loop]. unfold bind, super_create.
  destruct (dispatch (calls s) a) as [v|e]; [reflexivity|].
  destruct (is_TryAgain e); [|reflexivity].
  destruct timeout as [t|]; cbn; [|reflexivity].
  destruct (clock (ticks s) >? start + t)%Z; reflexivity.
Qed.

Lemma acreate_loop_S fuel start timeout (a : args) (s : state) :
  acreate_loop (S fuel) start timeout a s =
  let s1 := dispatched (EvAcreate a) s in
  match dispatch (calls s) a with
  | Return v => (Some (Return v), s1)
  | Raise e =>
      if is_TryAgain e then
        match timeout with
        | None => acreate_loop fuel start timeout a (logged warmup e s1)
        | Some t =>
            if (clock (ticks s) >? start + t)%Z
            then (Some (Raise e), clock_read s1)
            else acreate_loop fuel start timeout a
                   (logged warmup e (clock_read s1))
        end
      else (Some (Raise e), s1)
  end.
Proof.
  cbn [ChatCompletion.acreate_loop]. unfold bind, super_acreate.
  destruct (dispatch (calls s) a) as [v|e]; [reflexivity|].
  destruct (is_TryAgain e); [|reflexivity].
  destruct timeout as [t|]; cbn; [|reflexivity].
  destruct (clock (ticks s) >? start + t)%Z; reflexivity.
Qed.

Lemma create_unfold fuel timeout (a : args) (s : state) :
  create fuel timeout a s =
  create_loop fuel (clock (ticks s)) timeout a (clock_read s).
Proof. reflexivity. Qed.

Lemma create_init fuel timeout (a : args) :
  create fuel timeout a init = create_loop fuel (clock 0) timeout a started.
Proof. reflexivity. Qed.

Lemma acreate_init fuel timeout (a : args) :
  acreate fuel timeout a init = acreate_loop fuel (clock 0) timeout a started.
Proof. reflexivity. Qed.

Lemma acreate_unfold fuel timeout (a : args) (s : state) :
  acreate fuel timeout a s =
  acreate_loop fuel (clock (ticks s)) timeout a (clock_read s).
Proof. reflexivity. Qed.

(** While the dispatcher answers [TryAgain] and the deadline has not
    passed, the loop goes round: [n] such iterations only move the
    counters. *)
Lemma create_loop_skip (a : args) start timeout n :
  forall fuel (s : state),
    n <= fuel ->
    (forall i, i < n -> raises_TryAgain (dispatch (calls s + i) a) = true) ->
    (forall t i, timeout = Some t -> i < n ->
                 (clock (ticks s + i) <= start + t)%Z) ->
    exists s',
      create_loop fuel start timeout a s
        = create_loop (fuel - n) start timeout a s'
      /\ calls s' = calls s + n
      /\ ticks s' = ticks s + reads timeout n.
Proof.
  induction n as [|n IH]; intros fuel s Hfuel Hdisp Hclock.
  - exists s. rewrite Nat.sub_0_r.
    destruct timeout; cbn; repeat split; lia.
  - destruct fuel as [|fuel]; [lia|].
    rewrite create_loop_S; cbn zeta.
    pose proof (Hdisp 0 ltac:(lia)) as H0.
    rewrite Nat.add_0_r in H0.
    destruct (dispatch (calls s) a) as [v|e]; [discriminate|].
    cbn in H0. rewrite H0.
    destruct timeout as [t|].
    + pose proof (Hclock t 0 eq_refl ltac:(lia)) as Ht.
      rewrite Nat.add_0_r in Ht.
      replace (clock (ticks s) >? start + t)%Z with false
        by (symmetry; rewrite Z.gtb_ltb; apply Z.ltb_ge; exact Ht).
      destruct (IH fuel (logged warmup e (clock_read (dispatched (EvCreate a) s))))
        as (s' & Heq & Hc & Hk).
      * lia.
      * intros i Hi. cbn [calls ticks logged clock_read dispatched].
        replace (S (calls s) + i) with (calls s + S i) by lia.
        apply Hdisp. lia.
      * intros t' i Ht' Hi. cbn [calls ticks logged clock_read dispatched].
        replace (S (ticks s) + i) with (ticks s + S i) by lia.
        apply Hclock; [exact Ht'|lia].
      * exists s'. cbn in Hc, Hk. cbn. repeat split; [exact Heq|lia|lia].
    + destruct (IH fuel (logged warmup e (dispatched (EvCreate a) s)))
        as (s' & Heq & Hc & Hk).
      * lia.
      * intros i Hi. cbn [calls ticks logged clock_read dispatched].
        replace (S (calls s) + i) with (calls s + S i) by lia.
        apply Hdisp. lia.
      * intros t' i Ht'. discriminate.
      * exists s'. cbn in Hc, Hk. cbn. repeat split; [exact Heq|lia|lia].
Qed.

(** Every iteration invokes the dispatcher once: the counter never goes
    back, moves when there is fuel, and never by more than the fuel. *)
Lemma create_loop_calls (a : args) start timeout fuel :
  forall s : state,
    calls s + Nat.min 1 fuel <= calls (create_loop fuel start timeout a s).2
    /\ calls (create_loop fuel start timeout a s).2 <= calls s + fuel.
Proof.
  induction fuel as [|fuel IH]; intros s; [cbn; lia|].
  rewrite create_loop_S; cbn zeta.
  destruct (dispatch (calls s) a) as [v|e]; [cbn; lia|].
  destruct (is_TryAgain e); [|cbn; lia].
  destruct timeout as [t|].
  - destruct (clock (ticks s) >? start + t)%Z; [cbn; lia|].
    specialize (IH (logged warmup e (clock_read (dispatched (EvCreate a) s)))).
    cbn [calls logged clock_read dispatched] in IH. lia.
  - specialize (IH (logged warmup e (dispatched (EvCreate a) s))).
    cbn [calls logged clock_read dispatched] in IH. lia.
Qed.

(** Without a timeout the [raise] of the handler is out of reach: an
    exception that leaves the loop is not a [TryAgain]. *)
Lemma create_loop_no_timeout_raise (a : args) start fuel :
  forall (s : state) e,
    (create_loop fuel start None a s).1 = Some (Raise e) ->
    is_TryAgain e = false.
Proof.
  induction fuel as [|fuel IH]; intros s e; [discriminate|].
  rewrite create_loop_S; cbn zeta.
  destruct (dispatch (calls s) a) as [v|e0]; [discriminate|].
  destruct (is_TryAgain e0) eqn:He0.
  - apply IH.
  - cbn. intros [= <-]. exact He0.
Qed.

(** What the loop adds to the trace: no suspension, one dispatcher event
    per invocation, and the first event is an invocation. *)
Lemma create_loop_trace (a : args) start timeout fuel :
  forall s : state,
    exists more,
      trace (create_loop fuel start timeout a s).2 = trace s ++ more
      /\ Forall (fun ev => is_suspension ev = false) more
      /\ calls (create_loop fuel start timeout a s).2
          = calls s + dispatches more
      /\ (fuel <> 0 -> exists more', more = EvCreate a :: more').
Proof.
  induction fuel as [|fuel IH]; intros s.
  { exists []. cbn. rewrite app_nil_r. repeat split; [constructor|lia|congruence]. }
  rewrite create_loop_S; cbn zeta.
  assert (Hone : forall evs : list (event Msg Params),
             Forall (fun ev => is_suspension ev = false) evs ->
             dispatches evs = 0 ->
             exists more,
               trace s ++ [EvCreate a] ++ evs = trace s ++ more
               /\ Forall (fun ev => is_suspension ev = false) more
               /\ S (calls s) = calls s + dispatches more
               /\ (S fuel <> 0 -> exists more', more = EvCreate a :: more')).
  { intros evs Hs Hd. exists (EvCreate a :: evs). repeat split.
    - constructor; [reflexivity|exact Hs].
    - unfold dispatches in *. cbn. lia.
    - intros _. eexists. reflexivity. }
  destruct (dispatch (calls s) a) as [v|e].
  { apply (Hone []); [constructor|reflexivity]. }
  destruct (is_TryAgain e).
  2:{ apply (Hone []); [constructor|reflexivity]. }
  destruct timeout as [t|].
  - destruct (clock (ticks s) >? start + t)%Z.
    + cbn [snd trace calls clock_read dispatched]. rewrite <- app_assoc.
      apply (Hone [EvTime]); [repeat constructor|reflexivity].
    + destruct (IH (logged warmup e (clock_read (dispatched (EvCreate a) s))))
        as (more & Htr & Hs & Hc & _).
      exists (EvCreate a :: EvTime :: EvLogInfo warmup e :: more).
      rewrite Htr, Hc. cbn [trace calls logged clock_read dispatched].
      repeat split.
      * rewrite <- !app_assoc. reflexivity.
      * repeat constructor. exact Hs.
      * unfold dispatches. cbn. lia.
      * intros _. eexists. reflexivity.
  - destruct (IH (logged warmup e (dispatched (EvCreate a) s)))
      as (more & Htr & Hs & Hc & _).
    exists (EvCreate a :: EvLogInfo warmup e :: more).
    rewrite Htr, Hc. cbn [trace calls logged clock_read dispatched].
    repeat split.
    * rewrite <- !app_assoc. reflexivity.
    * repeat constructor. exact Hs.
    * unfold dispatches. cbn. lia.
    * intros _. eexists. reflexivity.
Qed.

(** C1.  If the dispatcher raises [TryAgain] on its first [N] invocations
    and returns [v] on invocation [N+1], then [create] with
    [timeout=None] returns [v], and the dispatcher has been invoked
    exactly [N+1] times.  (Any bound above [N] on the unfolded
    iterations gives this result.) *)
Theorem create_returns_after_warmup (a : args) (N fuel : nat) (v : Resp) :
  (forall i, i < N -> raises_TryAgain (dispatch i a) = true) ->
  dispatch N a = Return v ->
  N < fuel ->
  (create fuel None a init).1 = Some (Return v)
  /\ calls (create fuel None a init).2 = N + 1.
Proof.
  intros Hwarm Hok Hfuel. rewrite create_init.
  destruct (create_loop_skip a (clock 0) None N fuel started)
    as (s' & Heq & Hc & _); [lia|exact Hwarm|discriminate|].
  rewrite Heq. cbn in Hc.
  destruct (fuel - N) as [|m] eqn:Hm; [lia|].
  rewrite create_loop_S, Hc, Hok. cbn. split; [reflexivity|lia].
Qed.

(** C3.  An exception of the dispatcher's first invocation that is not a
    [TryAgain] leaves [create] at once, whatever the timeout: the final
    state shows the start reading of the clock and one invocation, and
    nothing else. *)
Theorem create_propagates_other_errors (a : args) timeout (fuel : nat) e :
  dispatch 0 a = Raise e ->
  is_TryAgain e = false ->
  create (S fuel) timeout a init
    = (Some (Raise e), St 1 1 [EvTime; EvCreate a]).
Proof.
  intros Hd He. rewrite create_init, create_loop_S. cbn.
  rewrite Hd, He. reflexivity.
Qed.

(** C5.  With [timeout=None], [create] never lets a [TryAgain] through:
    (1) an exception that leaves it is not a [TryAgain]; (2) after [n]
    answers [TryAgain] the dispatcher is invoked once more, for every
    [n]; (3) while the dispatcher keeps answering [TryAgain] the loop is
    still running after any number of attempts. *)
Theorem create_without_timeout_keeps_retrying (a : args) (fuel : nat) :
  (forall e, (create fuel None a init).1 = Some (Raise e) ->
             is_TryAgain e = false)
  /\ (forall n, n < fuel ->
         (forall i, i < n -> raises_TryAgain (dispatch i a) = true) ->
         n + 1 <= calls (create fuel None a init).2)
  /\ ((forall i, i < fuel -> raises_TryAgain (dispatch i a) = true) ->
      (create fuel None a init).1 = None
      /\ calls (create fuel None a init).2 = fuel).
Proof.
  rewrite create_init. split; [|split].
  - intros e. apply create_loop_no_timeout_raise.
  - intros n Hn Hwarm.
    destruct (create_loop_skip a (clock 0) None n fuel started)
      as (s' & Heq & Hc & _); [lia|exact Hwarm|discriminate|].
    rewrite Heq.
    pose proof (create_loop_calls a (clock 0) None (fuel - n) s') as [Hlo _].
    cbn in Hc. lia.
  - intros Hwarm.
    destruct (create_loop_skip a (clock 0) None fuel fuel started)
      as (s' & Heq & Hc & _); [lia|exact Hwarm|discriminate|].
    rewrite Heq, Nat.sub_diag. cbn. split; [reflexivity|exact Hc].
Qed.

(** C8.  Whatever the timeout (absent, zero or negative included),
    [create] invokes the dispatcher at least once, and that invocation
    comes right after the start reading of the clock: no deadline is
    looked at before the first attempt.  When the first answer is not a
    [TryAgain], it is the result and the clock is not read again. *)
Theorem create_attempts_before_any_deadline (a : args) timeout (fuel : nat) :
  1 <= calls (create (S fuel) timeout a init).2
  /\ (exists rest,
        trace (create (S fuel) timeout a init).2 = EvTime :: EvCreate a :: rest)
  /\ (raises_TryAgain (dispatch 0 a) = false ->
      create (S fuel) timeout a init
      = (Some (dispatch 0 a), St 1 1 [EvTime; EvCreate a])).
Proof.
  rewrite create_init. split; [|split].
  - pose proof (create_loop_calls a (clock 0) timeout (S fuel)
                  started) as [Hlo _].
    cbn [calls Nat.min] in Hlo. lia.
  - destruct (create_loop_trace a (clock 0) timeout (S fuel)
                started) as (more & Htr & _ & _ & Hfirst).
    destruct Hfirst as [rest ->]; [discriminate|].
    exists rest. rewrite Htr. reflexivity.
  - intros Hfirst. rewrite create_loop_S. cbn [calls] in *. cbn zeta.
    destruct (dispatch 0 a) as [v|e]; [reflexivity|].
    cbn in Hfirst. rewrite Hfirst. reflexivity.
Qed.



(** *** The asynchronous twin *)

Lemma asyncify_dispatched (a : args) (s : state) :
  dispatched (EvAcreate a) (asyncify_st s)
  = asyncify_st (dispatched (EvCreate a) s).
Proof. unfold dispatched, asyncify_st. cbn. rewrite fmap_app. reflexivity. Qed.

Lemma asyncify_clock_read (s : state) :
  clock_read (asyncify_st s) = asyncify_st (clock_read s).
Proof. unfold clock_read, asyncify_st. cbn. rewrite fmap_app. reflexivity. Qed.

Lemma asyncify_logged msg e (s : state) :
  logged msg e (asyncify_st s) = asyncify_st (logged msg e s).
Proof. unfold logged, asyncify_st. cbn. rewrite fmap_app. reflexivity. Qed.

(** The two loops run in lockstep: same answers, same counters, and
    traces that differ in the kind of dispatcher event only. *)
Lemma acreate_loop_asyncify (a : args) start timeout fuel :
  forall s : state,
    acreate_loop fuel start timeout a (asyncify_st s)
    = ((create_loop fuel start timeout a s).1,
       asyncify_st (create_loop fuel start timeout a s).2).
Proof.
  induction fuel as [|fuel IH]; intros s; [reflexivity|].
  rewrite acreate_loop_S, create_loop_S; cbn zeta.
  change (calls (asyncify_st s)) with (calls s).
  change (ticks (asyncify_st s)) with (ticks s).
  rewrite asyncify_dispatched.
  destruct (dispatch (calls s) a) as [v|e]; [reflexivity|].
  destruct (is_TryAgain e); [|reflexivity].
  destruct timeout as [t|].
  - rewrite asyncify_clock_read.
    destruct (clock (ticks s) >? start + t)%Z; [reflexivity|].
    rewrite asyncify_logged. apply IH.
  - rewrite asyncify_logged. apply IH.
Qed.

Lemma acreate_asyncify (a : args) timeout fuel :
  acreate fuel timeout a init
  = ((create fuel timeout a init).1,
     asyncify_st (create fuel timeout a init).2).
Proof.
  rewrite acreate_init, create_init.
  apply (acreate_loop_asyncify a (clock 0) timeout fuel started).
Qed.

Lemma spins_from_asyncify (tr : list (event Msg Params)) :
  forall pending, spins_from pending (asyncify <$> tr) = spins_from pending tr.
Proof.
  induction tr as [|ev tr IH]; intros pending; [reflexivity|].
  destruct ev; cbn; rewrite ?IH; reflexivity.
Qed.

Lemma asyncify_no_suspension (tr : list (event Msg Params)) :
  Forall (fun ev => is_suspension ev = false) tr ->
  Forall (fun ev => is_suspension ev = false) (asyncify <$> tr).
Proof.
  induction 1 as [|ev tr Hev _ IH]; [constructor|].
  cbn. constructor; [destruct ev; cbn in *; congruence|exact IH].
Qed.

(** In a trace without suspensions the loop spins as soon as the
    dispatcher is invoked a second time. *)
Lemma spins_from_no_suspension (tr : list (event Msg Params)) :
  Forall (fun ev => is_suspension ev = false) tr ->
  forall pending,
    spins_from pending tr
    = ((if pending then 1 else 2) <=? dispatches tr).
Proof.
  unfold dispatches.
  induction 1 as [|ev tr Hev _ IH]; intros pending; [destruct pending; reflexivity|].
  cbn [spins_from List.filter]. rewrite Hev.
  destruct (is_dispatch ev); rewrite IH.
  - cbn [length]. destruct pending; cbn [orb]; [|reflexivity].
    symmetry. apply Nat.leb_le. lia.
  - reflexivity.
Qed.

Lemma create_trace_summary (a : args) timeout fuel :
  Forall (fun ev => is_suspension ev = false)
    (trace (create fuel timeout a init).2)
  /\ dispatches (trace (create fuel timeout a init).2)
     = calls (create fuel timeout a init).2.
Proof.
  rewrite create_init.
  destruct (create_loop_trace a (clock 0) timeout fuel started)
    as (more & Htr & Hs & Hc & _).
  rewrite Htr, Hc. cbn [trace calls]. split.
  - apply Forall_app. split; [repeat constructor|exact Hs].
  - reflexivity.
Qed.

(** C6, as the code has it.  Neither [create] nor [acreate] ever
    suspends: no [EvSuspend] occurs in any of their traces, and two
    consecutive dispatcher invocations are separated by a suspension only
    vacuously, when the dispatcher was invoked less than twice.  (The
    awaited [super().acreate] is itself the invocation, not a pause
    between two of them.) *)
Theorem retry_loop_never_suspends (a : args) timeout (fuel : nat) :
  (Forall (fun ev => is_suspension ev = false)
     (trace (create fuel timeout a init).2)
   /\ suspends_between_attempts (trace (create fuel timeout a init).2)
      = (calls (create fuel timeout a init).2 <? 2))
  /\ (Forall (fun ev => is_suspension ev = false)
       (trace (acreate fuel timeout a init).2)
     /\ suspends_between_attempts (trace (acreate fuel timeout a init).2)
        = (calls (acreate fuel timeout a init).2 <? 2)).
Proof.
  destruct (create_trace_summary a timeout fuel) as [Hs Hd].
  assert (Hsync :
    suspends_between_attempts (trace (create fuel timeout a init).2)
    = (calls (create fuel timeout a init).2 <? 2)).
  { unfold suspends_between_attempts.
    rewrite (spins_from_no_suspension _ Hs false), Hd.
    rewrite Nat.ltb_antisym. reflexivity. }
  split; [split; assumption|].
  rewrite acreate_asyncify. cbn [snd asyncify_st trace calls]. split.
  - apply asyncify_no_suspension. exact Hs.
  - unfold suspends_between_attempts in *. rewrite spins_from_asyncify.
    exact Hsync.
Qed.

End Facts.
End RetryFacts.

(** * Properties of the moderation facade *)

Module ModerationFacts.
Import Moderation.

Section Facts.

Context {Resp : Type}.
Variable send :
  nat -> instance -> string -> string -> gmap string string -> outcome Resp.

#[local] Abbreviation create := (Moderation.create send).
#[local] Abbreviation acreate := (Moderation.acreate send).

Lemma prepare_invalid input m api_key :
  m ∉ VALID_MODEL_NAMES ->
  _prepare_create input (Some m) api_key
  = Raise (Exn ValueError invalid_model_message).
Proof.
  intros Hm. unfold _prepare_create.
  rewrite bool_decide_eq_false_2 by exact Hm. reflexivity.
Qed.

Lemma prepare_valid input m api_key :
  m ∈ VALID_MODEL_NAMES ->
  _prepare_create input (Some m) api_key
  = Return (Instance api_key, <[ "model" := m ]> {[ "input" := input ]}).
Proof.
  intros Hm. unfold _prepare_create.
  rewrite bool_decide_eq_true_2 by exact Hm. reflexivity.
Qed.

Lemma prepare_default input api_key :
  _prepare_create input None api_key
  = Return (Instance api_key, {[ "input" := input ]}).
Proof. reflexivity. Qed.

(** C4.  A model name outside [VALID_MODEL_NAMES] makes [create] raise
    the local validation error ([ValueError] in the code) and leaves the
    trace of dispatcher requests as it was: nothing is sent.  With a
    valid model, or with none, validation passes and [create] is the one
    request handed to the dispatcher. *)
Theorem create_validates_model_locally input m api_key (tr : list event) :
  (m ∉ VALID_MODEL_NAMES ->
     create input (Some m) api_key tr
     = (Raise (Exn ValueError invalid_model_message), tr))
  /\ (m ∈ VALID_MODEL_NAMES ->
       create input (Some m) api_key tr
       = request send (Instance api_key) "post" "/moderations"
           (<[ "model" := m ]> {[ "input" := input ]}) tr)
  /\ create input None api_key tr
     = request send (Instance api_key) "post" "/moderations"
         {[ "input" := input ]} tr.
Proof.
  unfold Moderation.create. split; [|split].
  - intros Hm. rewrite prepare_invalid by exact Hm. reflexivity.
  - intros Hm. rewrite prepare_valid by exact Hm. reflexivity.
  - reflexivity.
Qed.

(** C9.  The body of the request.  Without a model it is the one-entry
    dictionary holding the input, with no ["model"] key; with a valid
    model [m] it holds the input and the model and nothing else.  Both
    [create] and [acreate] post it to ["/moderations"]. *)
Theorem moderation_request_shape input m api_key (tr : list event) :
  let body0 : gmap string string := {[ "input" := input ]} in
  let body1 : gmap string string := <[ "model" := m ]> {[ "input" := input ]} in
  ((create input None api_key tr).2
     = tr ++ [EvRequest (Instance api_key) "post" "/moderations" body0]
   /\ (acreate input None api_key tr).2
      = tr ++ [EvArequest (Instance api_key) "post" "/moderations" body0]
   /\ body0 !! "model" = None
   /\ dom body0 = {[ "input" ]})
  /\ (m ∈ VALID_MODEL_NAMES ->
      (create input (Some m) api_key tr).2
        = tr ++ [EvRequest (Instance api_key) "post" "/moderations" body1]
      /\ (acreate input (Some m) api_key tr).2
         = tr ++ [EvArequest (Instance api_key) "post" "/moderations" body1]
      /\ body1 !! "input" = Some input
      /\ body1 !! "model" = Some m
      /\ dom body1 = {[ "input"; "model" ]}).
Proof.
  intros body0 body1. split.
  - split; [reflexivity|]. split; [reflexivity|].
    split; [apply lookup_singleton_ne; discriminate|apply dom_singleton_L].
  - intros Hm. unfold Moderation.create, Moderation.acreate.
    rewrite prepare_valid by exact Hm. subst body0 body1.
    split; [reflexivity|]. split; [reflexivity|]. split; [|split].
    + rewrite lookup_insert_ne by discriminate. apply lookup_singleton_eq.
    + apply lookup_insert_eq.
    + rewrite dom_insert_L, dom_singleton_L. set_solver.
Qed.

End Facts.
End ModerationFacts.

(** * Properties of Logger.sync *)

Module LoggerFacts.
Import Logger.

Section Facts.

Context {Kw : Type}.
Variable FineTune_retrieve : string -> outcome (gmap string json).
Variable log_fine_tune_result :
  nat -> json -> string -> option string -> bool -> bool -> Kw -> outcome bool.

(** The test [not fine_tunes or fine_tunes.get("data") is None]. *)
Lemma nothing_listed (listing : gmap string json) :
  listing = ∅ \/ listing !! "data" = None \/ listing !! "data" = Some JNull ->
  bool_decide (listing = ∅) || get_is_None listing "data" = true.
Proof.
  unfold get_is_None. intros [->|[->| ->]].
  - reflexivity.
  - apply orb_true_r.
  - apply orb_true_r.
Qed.

(** C10.  Without wandb, [sync] returns [None] for all arguments and
    leaves the trace untouched: no call to the job collaborator, no
    logging, no exception.  With wandb, an [id] that selects the listing
    branch and a listing that is empty or has no ["data"] entry (or
    [None] under it), [sync] lists the jobs, prints its notice and
    returns [None]; no job is logged. *)
Theorem sync_returns_None_early (FineTune_list : outcome (gmap string json))
    id n_jobs project entity force (kw : Kw) (tr : list event) :
  sync false FineTune_retrieve FineTune_list log_fine_tune_result
    id n_jobs project entity force kw tr
  = (Return None, tr)
  /\ (forall listing : gmap string json,
        truthy id = false ->
        listing = ∅ \/ listing !! "data" = None
          \/ listing !! "data" = Some JNull ->
        sync true FineTune_retrieve (Return listing) log_fine_tune_result
          id n_jobs project entity force kw tr
        = (Return None, tr ++ [EvList; EvPrint no_jobs_message])).
Proof.
  split; [reflexivity|].
  intros listing Hid Hempty.
  unfold sync, select_jobs, select_listed, bind, list_jobs, print, ret.
  cbn [negb]. rewrite Hid, (nothing_listed listing Hempty).
  rewrite <- app_assoc. reflexivity.
Qed.

End Facts.

(** A listing whose ["data"] is an empty list is neither empty nor without
    data: [sync] then runs to its end, with nothing to log. *)
Example sync_empty_data_list :
  sync (Kw := unit) true Examples.never_retrieved
    (Return Examples.listing_no_jobs) Examples.always_logs
    None None "GPT-3" None false tt []
  = (Return (Some completed_message), [EvList; EvPrint no_new_message]).
Proof. vm_compute. reflexivity. Qed.

End LoggerFacts.

(** * The two call surfaces *)

(** C7.  [acreate] and [create] of the chat wrapper give the same result
    after the same number of dispatcher invocations and clock readings, for
    every dispatcher and clock; their traces differ in the kind of
    dispatcher event only.  [Moderation.acreate] and [Moderation.create]
    end alike and hand the same (instance, method, url, params) to the
    dispatcher. *)
Theorem sync_and_async_paths_agree {Msg Params Resp Resp' : Type}
    (dispatch : nat -> ChatCompletion.create_args Msg Params -> outcome Resp)
    (clock : nat -> Z) (fuel : nat) (timeout : option Z)
    (a : ChatCompletion.create_args Msg Params)
    (send : nat -> Moderation.instance -> string -> string ->
            gmap string string -> outcome Resp')
    (input : string) (model api_key : option string)
    (tr : list Moderation.event) :
  let sync_run :=
    ChatCompletion.create dispatch clock fuel timeout a ChatCompletion.init in
  let async_run :=
    ChatCompletion.acreate dispatch clock fuel timeout a ChatCompletion.init in
  (async_run.1 = sync_run.1
   /\ ChatCompletion.calls async_run.2 = ChatCompletion.calls sync_run.2
   /\ ChatCompletion.ticks async_run.2 = ChatCompletion.ticks sync_run.2
   /\ ChatCompletion.trace async_run.2
      = ChatCompletion.asyncify <$> ChatCompletion.trace sync_run.2)
  /\ ((Moderation.acreate send input model api_key tr).1
      = (Moderation.create send input model api_key tr).1
      /\ Moderation.request_of <$> (Moderation.acreate send input model api_key tr).2
         = Moderation.request_of <$> (Moderation.create send input model api_key tr).2).
Proof.
  intros sync_run async_run. split.
  - subst sync_run async_run. rewrite RetryFacts.acreate_asyncify.
    repeat split.
  - unfold Moderation.acreate, Moderation.create.
    destruct (Moderation._prepare_create input model api_key) as [[inst params]|e].
    + unfold Moderation.request, Moderation.arequest. cbn [fst snd].
      split; [reflexivity|]. rewrite !fmap_app. reflexivity.
    + split; reflexivity.
Qed.

(** * The statements at concrete inputs *)

Module Instances.
Import Examples.

(** Three cold answers, then the completion: four invocations. *)
Lemma create_returns_after_warmup_witness :
  (ChatCompletion.create (warm_after 3) clock10 5 None chat_args
     ChatCompletion.init).1 = Some (Return "chat.completion")
  /\ ChatCompletion.calls
       (ChatCompletion.create (warm_after 3) clock10 5 None chat_args
          ChatCompletion.init).2 = 3 + 1.
Proof.
  apply (RetryFacts.create_returns_after_warmup
           (warm_after 3) clock10 chat_args 3 5 "chat.completion").
  - intros i Hi. destruct i as [|[|[|i]]]; [reflexivity..|lia].
  - reflexivity.
  - lia.
Defined.


(** A rejected key is reported after a single invocation. *)
Lemma create_propagates_other_errors_witness :
  ChatCompletion.create unauthorized clock10 4 (Some 60%Z) chat_args
    ChatCompletion.init
  = (Some (Raise denied),
     ChatCompletion.St 1 1
       [ChatCompletion.EvTime; ChatCompletion.EvCreate chat_args]).
Proof.
  apply (RetryFacts.create_propagates_other_errors
           unauthorized clock10 chat_args (Some 60%Z) 3 denied);
    reflexivity.
Defined.

(** Seven cold answers in a row, no timeout: eight invocations at least
    once eight iterations are unfolded, and still no result after seven. *)
Lemma create_without_timeout_keeps_retrying_witness :
  7 + 1 <= ChatCompletion.calls
             (ChatCompletion.create (warm_after 7) clock10 8 None chat_args
                ChatCompletion.init).2
  /\ (ChatCompletion.create always_warming clock10 7 None chat_args
        ChatCompletion.init).1 = None.
Proof.
  split.
  - destruct (RetryFacts.create_without_timeout_keeps_retrying
                (warm_after 7) clock10 chat_args 8) as (_ & Hnext & _).
    apply (Hnext 7); [lia|].
    intros i Hi. destruct i as [|[|[|[|[|[|[|i]]]]]]]; [reflexivity..|lia].
  - destruct (RetryFacts.create_without_timeout_keeps_retrying
                always_warming clock10 chat_args 7) as (_ & _ & Hrun).
    apply Hrun. intros i _. reflexivity.
Defined.

(** A deadline that lies in the past does not stop the first request. *)
Lemma create_attempts_before_any_deadline_witness :
  ChatCompletion.create (warm_after 0) clock10 1 (Some (-5)%Z) chat_args
    ChatCompletion.init
  = (Some (Return "chat.completion"),
     ChatCompletion.St 1 1
       [ChatCompletion.EvTime; ChatCompletion.EvCreate chat_args]).
Proof.
  destruct (RetryFacts.create_attempts_before_any_deadline
              (warm_after 0) clock10 chat_args (Some (-5)%Z) 0)
    as (_ & _ & Hfirst).
  apply Hfirst. reflexivity.
Defined.

(** One cold answer and the loop has spun: two invocations, nothing but
    the log line between them.  The same on the asynchronous path. *)
Lemma retry_loop_spins :
  (ChatCompletion.calls
     (ChatCompletion.create (warm_after 1) clock10 3 None chat_args
        ChatCompletion.init).2 = 2
   /\ ChatCompletion.suspends_between_attempts
        (ChatCompletion.trace
           (ChatCompletion.create (warm_after 1) clock10 3 None chat_args
              ChatCompletion.init).2) = false)
  /\ (ChatCompletion.calls
        (ChatCompletion.acreate (warm_after 1) clock10 3 None chat_args
           ChatCompletion.init).2 = 2
      /\ ChatCompletion.suspends_between_attempts
           (ChatCompletion.trace
              (ChatCompletion.acreate (warm_after 1) clock10 3 None chat_args
                 ChatCompletion.init).2) = false).
Proof. repeat split; reflexivity. Qed.

(** An unknown model is refused with nothing sent; a known one goes out. *)
Lemma create_validates_model_locally_witness :
  Moderation.create answering "some text" (Some "not-a-real-model") None []
  = (Raise (Exn ValueError Moderation.invalid_model_message), [])
  /\ Moderation.create answering "some text" (Some "text-moderation-latest")
       None []
     = Moderation.request answering (Moderation.Instance None) "post"
         "/moderations"
         (<[ "model" := "text-moderation-latest" ]> {[ "input" := "some text" ]})
         [].
Proof.
  split.
  - destruct (ModerationFacts.create_validates_model_locally
                answering "some text" "not-a-real-model" None [])
      as (Hbad & _ & _).
    apply Hbad.
    apply (bool_decide_eq_false_1
             ("not-a-real-model" ∈ Moderation.VALID_MODEL_NAMES)).
    vm_compute. reflexivity.
  - destruct (ModerationFacts.create_validates_model_locally
                answering "some text" "text-moderation-latest" None [])
      as (_ & Hgood & _).
    apply Hgood.
    apply (bool_decide_eq_true_1
             ("text-moderation-latest" ∈ Moderation.VALID_MODEL_NAMES)).
    vm_compute. reflexivity.
Defined.

(** The body sent for a valid model has exactly the two entries. *)
Lemma moderation_request_shape_witness :
  (Moderation.create answering "some text" (Some "text-moderation-stable")
     (Some "sk-test") []).2
  = [Moderation.EvRequest (Moderation.Instance (Some "sk-test")) "post"
       "/moderations"
       (<[ "model" := "text-moderation-stable" ]> {[ "input" := "some text" ]})]
  /\ dom (<[ "model" := "text-moderation-stable" ]>
            ({[ "input" := "some text" ]} : gmap string string))
     = {[ "input"; "model" ]}.
Proof.
  destruct (ModerationFacts.moderation_request_shape
              answering "some text" "text-moderation-stable" (Some "sk-test") [])
    as (_ & Hvalid).
  destruct Hvalid as (Hsent & _ & _ & _ & Hdom).
  - apply (bool_decide_eq_true_1
             ("text-moderation-stable" ∈ Moderation.VALID_MODEL_NAMES)).
    vm_compute. reflexivity.
  - split; [exact Hsent|exact Hdom].
Defined.

(** A listing without data and no id: the notice and [None]. *)
Lemma sync_returns_None_early_witness :
  Logger.sync (Kw := unit) true never_retrieved (Return listing_without_data)
    always_logs None None "GPT-3" None false tt []
  = (Return None, [Logger.EvList; Logger.EvPrint Logger.no_jobs_message]).
Proof.
  destruct (LoggerFacts.sync_returns_None_early
              never_retrieved always_logs (Return listing_without_data)
              None None "GPT-3" None false tt []) as (_ & Hlisted).
  apply (Hlisted listing_without_data).
  - reflexivity.
  - right. left. vm_compute. reflexivity.
Defined.

End Instances.

(** * More on the retry-on-warmup wrapper *)

Module RetryRuns.
Import ChatCompletion RetryTrace.

Section Runs.

Context {Msg Params Resp : Type}.
Variable dispatch : nat -> create_args Msg Params -> outcome Resp.
Variable clock : nat -> Z.

#[local] Abbreviation args := (create_args Msg Params).
#[local] Abbreviation state := (st Msg Params).
#[local] Abbreviation create_loop := (ChatCompletion.create_loop dispatch clock).
#[local] Abbreviation create := (ChatCompletion.create dispatch clock).
#[local] Abbreviation acreate := (ChatCompletion.acreate dispatch clock).
#[local] Abbreviation warmup := "Waiting for model to warm up".
#[local] Abbreviation started := (St 0 1 [EvTime] : state).

(** A caught [TryAgain] that is still in time sends the loop round. *)
Lemma create_loop_retry (a : args) start timeout fuel (s : state) e :
  dispatch (calls s) a = Raise e ->
  is_TryAgain e = true ->
  (forall t, timeout = Some t -> (clock (ticks s) <= start + t)%Z) ->
  create_loop (S fuel) start timeout a s
  = create_loop fuel start timeout a (retried (EvCreate a) timeout e s).
Proof.
  intros Hd He Hnow. rewrite RetryFacts.create_loop_S, Hd, He. cbn zeta.
  destruct timeout as [t|]; [|reflexivity].
  replace (clock (ticks s) >? start + t)%Z with false; [reflexivity|].
  symmetry. rewrite Z.gtb_ltb. apply Z.ltb_ge. apply Hnow. reflexivity.
Qed.

(** Induction over the iterations of the loop: a relation between the
    number of unfolded iterations, the state before, the result and the
    state after holds of every run as soon as it holds of the four ways
    an iteration can end and is preserved by a retry. *)
Lemma create_loop_run_ind (a : args) start timeout
    (P : nat -> state -> option (outcome Resp) -> state -> Prop) :
  (forall s, P 0 s None s) ->
  (forall fuel s v,
     dispatch (calls s) a = Return v ->
     P (S fuel) s (Some (Return v)) (dispatched (EvCreate a) s)) ->
  (forall fuel s e,
     dispatch (calls s) a = Raise e -> is_TryAgain e = false ->
     P (S fuel) s (Some (Raise e)) (dispatched (EvCreate a) s)) ->
  (forall fuel s e t,
     dispatch (calls s) a = Raise e -> is_TryAgain e = true ->
     timeout = Some t -> (start + t < clock (ticks s))%Z ->
     P (S fuel) s (Some (Raise e)) (clock_read (dispatched (EvCreate a) s))) ->
  (forall fuel s e r s',
     dispatch (calls s) a = Raise e -> is_TryAgain e = true ->
     (forall t, timeout = Some t -> (clock (ticks s) <= start + t)%Z) ->
     P fuel (retried (EvCreate a) timeout e s) r s' ->
     P (S fuel) s r s') ->
  forall fuel s,
    P fuel s (create_loop fuel start timeout a s).1
             (create_loop fuel start timeout a s).2.
Proof.
  intros Hstop Hret Herr Hexp Hretry.
  induction fuel as [|fuel IH]; intros s; [apply Hstop|].
  destruct (dispatch (calls s) a) as [v|e] eqn:Hd.
  { rewrite RetryFacts.create_loop_S, Hd. apply Hret. exact Hd. }
  destruct (is_TryAgain e) eqn:He.
  2:{ rewrite RetryFacts.create_loop_S, Hd, He. apply Herr; assumption. }
  destruct timeout as [t|] eqn:Ht.
  - destruct (Z.lt_ge_cases (start + t) (clock (ticks s))) as [Hlt|Hge].
    + rewrite RetryFacts.create_loop_S, Hd, He. cbn zeta.
      replace (clock (ticks s) >? start + t)%Z with true
        by (symmetry; rewrite Z.gtb_ltb; apply Z.ltb_lt; exact Hlt).
      apply (Hexp fuel s e t); auto.
    + rewrite (create_loop_retry a start (Some t) fuel s e Hd He)
        by (intros t' [= <-]; exact Hge).
      apply (Hretry fuel s e); [exact Hd|exact He| |apply IH].
      intros t' [= <-]. exact Hge.
  - rewrite (create_loop_retry a start None fuel s e Hd He) by discriminate.
    apply (Hretry fuel s e); [exact Hd|exact He|discriminate|apply IH].
Qed.

Lemma calls_retried ev timeout e (s : state) :
  calls (retried ev timeout e s) = S (calls s).
Proof. destruct timeout; reflexivity. Qed.

Lemma ticks_retried ev timeout e (s : state) :
  ticks (retried ev timeout e s) = ticks s + reads timeout 1.
Proof. destruct timeout; cbn; lia. Qed.

Lemma trace_retried ev timeout e (s : state) :
  trace (retried ev timeout e s)
  = trace s ++ ev :: match timeout with
                     | Some _ => [EvTime; EvLogInfo warmup e]
                     | None => [EvLogInfo warmup e]
                     end.
Proof. destruct timeout; cbn; rewrite <- ?app_assoc; reflexivity. Qed.

Lemma log_lines_app (tr1 tr2 : list (event Msg Params)) :
  log_lines (tr1 ++ tr2) = log_lines tr1 ++ log_lines tr2.
Proof.
  induction tr1 as [|ev tr1 IH]; [reflexivity|].
  destruct ev; cbn; rewrite ?IH; reflexivity.
Qed.

Lemma answers_S (a : args) first n :
  answers dispatch a first (S n)
  = dispatch first a :: answers dispatch a (S first) n.
Proof. reflexivity. Qed.

(** A run ends with what the last invocation answered, and every earlier
    invocation answered [TryAgain]; a run that has not ended has used up
    its iterations on [TryAgain] answers. *)
Lemma create_loop_last_answer (a : args) start timeout fuel (s : state) :
  match (create_loop fuel start timeout a s).1 with
  | Some o =>
      calls s + 1 <= calls (create_loop fuel start timeout a s).2
      /\ dispatch (calls (create_loop fuel start timeout a s).2 - 1) a = o
      /\ forall i,
           calls s <= i < calls (create_loop fuel start timeout a s).2 - 1 ->
           raises_TryAgain (dispatch i a) = true
  | None =>
      calls (create_loop fuel start timeout a s).2 = calls s + fuel
      /\ forall i,
           calls s <= i < calls (create_loop fuel start timeout a s).2 ->
           raises_TryAgain (dispatch i a) = true
  end.
Proof.
  revert fuel s.
  apply (create_loop_run_ind a start timeout
           (fun fuel s r s' =>
              match r with
              | Some o =>
                  calls s + 1 <= calls s'
                  /\ dispatch (calls s' - 1) a = o
                  /\ forall i, calls s <= i < calls s' - 1 ->
                               raises_TryAgain (dispatch i a) = true
              | None =>
                  calls s' = calls s + fuel
                  /\ forall i, calls s <= i < calls s' ->
                               raises_TryAgain (dispatch i a) = true
              end)).
  - intros s. split; [lia|]. intros i Hi. lia.
  - intros fuel s v Hd. cbn [calls dispatched].
    replace (S (calls s) - 1) with (calls s) by lia.
    repeat split; [lia|exact Hd|]. intros i Hi. lia.
  - intros fuel s e Hd He. cbn [calls dispatched].
    replace (S (calls s) - 1) with (calls s) by lia.
    repeat split; [lia|exact Hd|]. intros i Hi. lia.
  - intros fuel s e t Hd He _ _. cbn [calls dispatched clock_read].
    replace (S (calls s) - 1) with (calls s) by lia.
    repeat split; [lia|exact Hd|]. intros i Hi. lia.
  - intros fuel s e r s' Hd He _. rewrite calls_retried.
    assert (Hs : raises_TryAgain (dispatch (calls s) a) = true)
      by (rewrite Hd; exact He).
    destruct r as [o|].
    + intros (Hle & Hlast & Hbefore). repeat split; [lia|exact Hlast|].
      intros i Hi. destruct (decide (i = calls s)) as [->|Hne]; [exact Hs|].
      apply Hbefore. lia.
    + intros (Hc & Hbefore). split; [lia|].
      intros i Hi. destruct (decide (i = calls s)) as [->|Hne]; [exact Hs|].
      apply Hbefore. lia.
Qed.

(** X3.  Whenever [create] ends, its result is what the last dispatcher
    invocation answered (the value returned, or the very exception raised),
    and every invocation before the last answered [TryAgain].  [acreate]
    ends with the same result after the same number of invocations. *)
Theorem create_result_is_last_answer (a : args) timeout (fuel : nat) o :
  (create fuel timeout a init).1 = Some o ->
  (1 <= calls (create fuel timeout a init).2
   /\ dispatch (calls (create fuel timeout a init).2 - 1) a = o
   /\ forall i, i < calls (create fuel timeout a init).2 - 1 ->
                raises_TryAgain (dispatch i a) = true)
  /\ ((acreate fuel timeout a init).1 = Some o
      /\ calls (acreate fuel timeout a init).2
         = calls (create fuel timeout a init).2).
Proof.
  intros Hres. split.
  - revert Hres. rewrite RetryFacts.create_init.
    pose proof (create_loop_last_answer a (clock 0) timeout fuel started) as H.
    intros Hres. rewrite Hres in H. cbn [calls] in H.
    destruct H as (Hle & Hlast & Hbefore).
    repeat split; [lia|exact Hlast|]. intros i Hi. apply Hbefore. lia.
  - rewrite RetryFacts.acreate_asyncify. split; [exact Hres|reflexivity].
Qed.

Lemma log_lines_asyncify (tr : list (event Msg Params)) :
  log_lines (asyncify <$> tr) = log_lines tr.
Proof.
  induction tr as [|ev tr IH]; [reflexivity|].
  destruct ev; cbn; rewrite ?IH; reflexivity.
Qed.

Lemma dispatch_events_asyncify (tr : list (event Msg Params)) :
  dispatch_events (asyncify <$> tr) = asyncify <$> dispatch_events tr.
Proof.
  unfold dispatch_events.
  induction tr as [|ev tr IH]; [reflexivity|].
  destruct ev; cbn; rewrite ?IH; reflexivity.
Qed.

(** The lines a run adds to the log: one per [TryAgain] that was retried,
    in order, each with the warm-up message and the error caught. *)
Lemma create_loop_log_lines (a : args) start timeout fuel (s : state) :
  calls s + ended (create_loop fuel start timeout a s).1
  <= calls (create_loop fuel start timeout a s).2
  /\ exists lines,
       log_lines (trace (create_loop fuel start timeout a s).2)
       = log_lines (trace s) ++ lines
       /\ Forall (fun line => line.1 = warmup) lines
       /\ (fun line => Raise line.2) <$> lines
          = answers dispatch a (calls s)
              (calls (create_loop fuel start timeout a s).2 - calls s
               - ended (create_loop fuel start timeout a s).1).
Proof.
  revert fuel s.
  apply (create_loop_run_ind a start timeout
           (fun fuel s r s' =>
              calls s + ended r <= calls s'
              /\ exists lines,
                   log_lines (trace s') = log_lines (trace s) ++ lines
                   /\ Forall (fun line => line.1 = warmup) lines
                   /\ (fun line => Raise line.2) <$> lines
                      = answers dispatch a (calls s)
                          (calls s' - calls s - ended r))).
  - intros s. split; [cbn; lia|]. exists []. rewrite app_nil_r, Nat.sub_diag.
    repeat split. constructor.
  - intros fuel s v _. split; [cbn; lia|].
    exists []. cbn [calls trace dispatched ended].
    rewrite log_lines_app, app_nil_r.
    replace (S (calls s) - calls s - 1) with 0 by lia.
    repeat split; [rewrite app_nil_r; reflexivity|constructor].
  - intros fuel s e _ _. split; [cbn; lia|].
    exists []. cbn [calls trace dispatched ended].
    rewrite log_lines_app, app_nil_r.
    replace (S (calls s) - calls s - 1) with 0 by lia.
    repeat split; [rewrite app_nil_r; reflexivity|constructor].
  - intros fuel s e t _ _ _ _. split; [cbn; lia|]. exists [].
    cbn [calls trace dispatched clock_read ended].
    rewrite !log_lines_app, !app_nil_r.
    replace (S (calls s) - calls s - 1) with 0 by lia.
    repeat split; constructor.
  - intros fuel s e r s' Hd He _ (Hmore & lines & Hlog & Hmsg & Hans).
    rewrite calls_retried, trace_retried, log_lines_app in *.
    split; [lia|].
    exists ((warmup, e) :: lines). repeat split.
    + rewrite Hlog, <- app_assoc. f_equal. destruct timeout; reflexivity.
    + constructor; [reflexivity|exact Hmsg].
    + replace (calls s' - calls s - ended r)
        with (S (calls s' - S (calls s) - ended r)) by lia.
      rewrite answers_S, Hd, fmap_cons, Hans. reflexivity.
Qed.

(** X4.  The diagnostics of a run are the errors that were retried, in
    order: every line carries the warm-up message, and the errors logged
    are the answers of all invocations but the last of a run that has
    ended (of all invocations of one that is still retrying).  [acreate]
    logs the same lines. *)
Theorem create_logs_every_retry (a : args) timeout (fuel : nat) :
  Forall (fun line => line.1 = warmup)
    (log_lines (trace (create fuel timeout a init).2))
  /\ (fun line => Raise line.2)
       <$> log_lines (trace (create fuel timeout a init).2)
     = answers dispatch a 0
         (calls (create fuel timeout a init).2
          - ended (create fuel timeout a init).1)
  /\ log_lines (trace (acreate fuel timeout a init).2)
     = log_lines (trace (create fuel timeout a init).2).
Proof.
  split; [|split].
  - rewrite RetryFacts.create_init.
    destruct (create_loop_log_lines a (clock 0) timeout fuel started)
      as (_ & lines & -> & Hmsg & _).
    exact Hmsg.
  - rewrite RetryFacts.create_init.
    destruct (create_loop_log_lines a (clock 0) timeout fuel started)
      as (_ & lines & -> & _ & Hans).
    cbn [calls] in Hans. rewrite Nat.sub_0_r in Hans. exact Hans.
  - rewrite RetryFacts.acreate_asyncify. cbn [snd asyncify_st trace].
    apply log_lines_asyncify.
Qed.

(** The dispatcher events a run adds: one per invocation, each with the
    arguments of the caller. *)
Lemma create_loop_dispatch_events (a : args) start timeout fuel (s : state) :
  calls s <= calls (create_loop fuel start timeout a s).2
  /\ dispatch_events (trace (create_loop fuel start timeout a s).2)
     = dispatch_events (trace s)
       ++ replicate (calls (create_loop fuel start timeout a s).2 - calls s)
            (EvCreate a).
Proof.
  revert fuel s.
  apply (create_loop_run_ind a start timeout
           (fun fuel s r s' =>
              calls s <= calls s'
              /\ dispatch_events (trace s')
                 = dispatch_events (trace s)
                   ++ replicate (calls s' - calls s) (EvCreate a)));
    unfold dispatch_events.
  - intros s. rewrite Nat.sub_diag, app_nil_r. split; [lia|reflexivity].
  - intros fuel s v _. cbn [calls trace dispatched].
    rewrite List.filter_app. replace (S (calls s) - calls s) with 1 by lia.
    split; [lia|reflexivity].
  - intros fuel s e _ _. cbn [calls trace dispatched].
    rewrite List.filter_app. replace (S (calls s) - calls s) with 1 by lia.
    split; [lia|reflexivity].
  - intros fuel s e t _ _ _ _. cbn [calls trace dispatched clock_read].
    rewrite !List.filter_app. replace (S (calls s) - calls s) with 1 by lia.
    cbn. rewrite app_nil_r. split; [lia|reflexivity].
  - intros fuel s e r s' _ _ _. rewrite calls_retried, trace_retried.
    intros (Hle & ->). split; [lia|].
    rewrite List.filter_app, <- app_assoc. f_equal.
    replace (calls s' - calls s) with (S (calls s' - S (calls s))) by lia.
    destruct timeout; reflexivity.
Qed.

(** X5.  Every dispatcher invocation of a run receives the arguments
    of the caller, unchanged from one attempt to the next: the dispatcher
    events of the trace are as many copies of [EvCreate a] ([EvAcreate a]
    for [acreate]) as there were invocations. *)
Theorem create_forwards_same_arguments (a : args) timeout (fuel : nat) :
  dispatch_events (trace (create fuel timeout a init).2)
  = replicate (calls (create fuel timeout a init).2) (EvCreate a)
  /\ dispatch_events (trace (acreate fuel timeout a init).2)
     = replicate (calls (acreate fuel timeout a init).2) (EvAcreate a).
Proof.
  assert (Hsync :
    dispatch_events (trace (create fuel timeout a init).2)
    = replicate (calls (create fuel timeout a init).2) (EvCreate a)).
  { rewrite RetryFacts.create_init.
    destruct (create_loop_dispatch_events a (clock 0) timeout fuel started)
      as (_ & ->).
    cbn [calls trace dispatch_events List.filter is_dispatch app].
    rewrite Nat.sub_0_r. reflexivity. }
  split; [exact Hsync|].
  rewrite RetryFacts.acreate_asyncify. cbn [snd asyncify_st trace calls].
  rewrite <- (fmap_replicate asyncify _ (EvCreate a)), <- Hsync.
  apply dispatch_events_asyncify.
Qed.

(** The clock readings a run adds: one per [TryAgain] answer when a
    timeout is set, none otherwise. *)
Lemma create_loop_clock_reads (a : args) start timeout fuel (s : state) :
  calls s <= calls (create_loop fuel start timeout a s).2
  /\ ticks (create_loop fuel start timeout a s).2
     = ticks s
       + reads timeout
           (length (List.filter raises_TryAgain
              (answers dispatch a (calls s)
                 (calls (create_loop fuel start timeout a s).2 - calls s)))).
Proof.
  revert fuel s.
  apply (create_loop_run_ind a start timeout
           (fun fuel s r s' =>
              calls s <= calls s'
              /\ ticks s'
                 = ticks s
                   + reads timeout
                       (length (List.filter raises_TryAgain
                          (answers dispatch a (calls s) (calls s' - calls s)))))).
  - intros s. rewrite Nat.sub_diag. split; [lia|]. destruct timeout; cbn; lia.
  - intros fuel s v Hd. cbn [calls ticks dispatched].
    replace (S (calls s) - calls s) with 1 by lia.
    rewrite answers_S, Hd. split; [lia|]. destruct timeout; cbn; lia.
  - intros fuel s e Hd He. cbn [calls ticks dispatched].
    replace (S (calls s) - calls s) with 1 by lia.
    rewrite answers_S, Hd. cbn. rewrite He. split; [lia|].
    destruct timeout; cbn; lia.
  - intros fuel s e t Hd He -> _. cbn [calls ticks dispatched clock_read].
    replace (S (calls s) - calls s) with 1 by lia.
    rewrite answers_S, Hd. cbn. rewrite He. cbn. split; lia.
  - intros fuel s e r s' Hd He _. rewrite calls_retried, ticks_retried.
    intros (Hle & ->). split; [lia|].
    replace (calls s' - calls s) with (S (calls s' - S (calls s))) by lia.
    rewrite answers_S, Hd. cbn [List.filter raises_TryAgain]. rewrite He.
    cbn [length]. destruct timeout; cbn [reads]; lia.
Qed.

(** X6.  Without a timeout the clock is read exactly once, at the
    start, however often the loop retries; with a timeout it is read once
    more for every [TryAgain] the dispatcher has answered. *)
Theorem create_reads_clock_per_caught_error (a : args) timeout (fuel : nat) :
  ticks (create fuel timeout a init).2
  = match timeout with
    | None => 1
    | Some _ =>
        1 + length (List.filter raises_TryAgain
                      (answers dispatch a 0 (calls (create fuel timeout a init).2)))
    end.
Proof.
  rewrite RetryFacts.create_init.
  destruct (create_loop_clock_reads a (clock 0) timeout fuel started) as (_ & ->).
  cbn [calls ticks]. rewrite Nat.sub_0_r. destruct timeout; reflexivity.
Qed.



(** X1.  With or without a timeout: if the dispatcher answers
    [TryAgain] to its first [N] invocations, each deadline check made
    after them finds the elapsed time at most the timeout, and invocation
    [N+1] answers anything else (a value or another error), then that
    answer is the result of [create], after [N+1] invocations; the time at
    which the last answer arrives is not looked at. *)
Theorem create_returns_first_other_answer (a : args) timeout (N fuel : nat) :
  (forall i, i < N -> raises_TryAgain (dispatch i a) = true) ->
  raises_TryAgain (dispatch N a) = false ->
  (forall t i, timeout = Some t -> 1 <= i <= N -> (elapsed clock i <= t)%Z) ->
  N < fuel ->
  (create fuel timeout a init).1 = Some (dispatch N a)
  /\ calls (create fuel timeout a init).2 = N + 1
  /\ ticks (create fuel timeout a init).2 = 1 + reads timeout N.
Proof.
  intros Hwarm Hother Htime Hfuel. rewrite RetryFacts.create_init.
  destruct (RetryFacts.create_loop_skip dispatch clock a (clock 0) timeout N
              fuel started) as (s' & Heq & Hc & Hk).
  - lia.
  - exact Hwarm.
  - intros t i Ht Hi. specialize (Htime t (S i) Ht ltac:(lia)).
    unfold elapsed in Htime. cbn [ticks Nat.add]. lia.
  - rewrite Heq. cbn [calls ticks Nat.add] in Hc, Hk.
    destruct (fuel - N) as [|m] eqn:Hm; [lia|].
    rewrite RetryFacts.create_loop_S, Hc. cbn zeta.
    destruct (dispatch N a) as [v|e]; [cbn; repeat split; lia|].
    cbn in Hother. rewrite Hother. cbn. repeat split; lia.
Qed.


End Runs.
End RetryRuns.

(** * More on Logger.sync *)

Module SyncRuns.
Import Logger SyncTrace.

Section Runs.

Context {Kw : Type}.
Variable FineTune_retrieve : string -> outcome (gmap string json).
Variable FineTune_list : outcome (gmap string json).
Variable log_fine_tune_result :
  nat -> json -> string -> option string -> bool -> bool -> Kw -> outcome bool.

#[local] Abbreviation events := (list (event (Kw := Kw))).
#[local] Abbreviation sync :=
  (Logger.sync true FineTune_retrieve FineTune_list log_fine_tune_result).
#[local] Abbreviation select_jobs :=
  (Logger.select_jobs (Kw := Kw) FineTune_retrieve FineTune_list).
#[local] Abbreviation select_listed :=
  (Logger.select_listed (Kw := Kw) FineTune_list).
#[local] Abbreviation log_all := (Logger.log_all log_fine_tune_result).
#[local] Abbreviation log_answers := (SyncTrace.log_answers log_fine_tune_result).

Lemma nlogs_snoc_log (tr : events) job project entity force sw kw :
  nlogs (tr ++ [EvLogFineTune job project entity force sw kw]) = S (nlogs tr).
Proof.
  unfold nlogs. rewrite List.filter_app, length_app. cbn. lia.
Qed.

(** The list comprehension when every call returns. *)
Lemma log_all_returns project entity force sw kw (jobs : list json) :
  forall (tr : events) bs,
    log_answers (nlogs tr) jobs project entity force sw kw = Return <$> bs ->
    log_all jobs project entity force sw kw tr
    = (Return bs, tr ++ log_events jobs project entity force sw kw).
Proof.
  induction jobs as [|job jobs IH]; intros tr bs Hans.
  - destruct bs; [|discriminate]. cbn. rewrite app_nil_r. reflexivity.
  - destruct bs as [|b bs]; [discriminate|].
    cbn in Hans. injection Hans as Hb Hrest.
    cbn [Logger.log_all]. unfold bind, _log_fine_tune.
    fold (nlogs tr). rewrite Hb.
    rewrite <- nlogs_snoc_log with (job := job) (project := project)
      (entity := entity) (force := force) (sw := sw) (kw := kw) in Hrest.
    rewrite (IH _ bs Hrest). cbn. rewrite <- app_assoc. reflexivity.
Qed.

(** The list comprehension when a call raises: the calls before it have
    been made, the ones after it are not. *)
Lemma log_all_raises project entity force sw kw (jobs : list json) :
  forall (tr : events) bs e rest,
    log_answers (nlogs tr) jobs project entity force sw kw
    = (Return <$> bs) ++ Raise e :: rest ->
    log_all jobs project entity force sw kw tr
    = (Raise e,
       tr ++ log_events (take (S (length bs)) jobs) project entity force sw kw).
Proof.
  induction jobs as [|job jobs IH]; intros tr bs e rest Hans.
  - destruct bs; discriminate.
  - cbn [Logger.log_all]. unfold bind, _log_fine_tune. fold (nlogs tr).
    destruct bs as [|b bs]; cbn in Hans; injection Hans as Hb Hrest.
    + rewrite Hb. reflexivity.
    + rewrite Hb.
      rewrite <- nlogs_snoc_log with (job := job) (project := project)
        (entity := entity) (force := force) (sw := sw) (kw := kw) in Hrest.
      rewrite (IH _ bs e rest Hrest). cbn. rewrite <- app_assoc. reflexivity.
Qed.

(** X8.  With a non-empty [id], [sync] retrieves that job, removes its
    ["events"] entry and hands it to [_log_fine_tune] once, with warnings
    switched on; the jobs are not listed, [n_jobs] is ignored, and the
    completion message is returned whatever [_log_fine_tune] returns. *)
Theorem sync_by_id_logs_that_job i n_jobs project entity force (kw : Kw)
    (tr : events) fine_tune b :
  i <> "" ->
  FineTune_retrieve i = Return fine_tune ->
  log_fine_tune_result (nlogs tr) (JObj (delete "events" fine_tune))
    project entity force true kw = Return b ->
  sync (Some i) n_jobs project entity force kw tr
  = (Return (Some completed_message),
     tr ++ [EvRetrieve i;
            EvLogFineTune (JObj (delete "events" fine_tune))
              project entity force true kw]).
Proof.
  intros Hi Hget Hlog.
  unfold Logger.sync, Logger.select_jobs, bind, retrieve, ret. cbn [negb truthy].
  rewrite bool_decide_eq_false_2 by exact Hi. cbn [negb default].
  change (id i) with i. rewrite Hget.
  rewrite (bool_decide_eq_false_2 (Some i = None)) by discriminate.
  cbn [andb negb Logger.log_all]. unfold bind, _log_fine_tune, ret.
  replace (length (List.filter is_log (tr ++ [EvRetrieve i]))) with (nlogs tr)
    by (unfold nlogs; rewrite List.filter_app, length_app; cbn; lia).
  rewrite Hlog. cbn. rewrite <- app_assoc. reflexivity.
Qed.

(** X9.  From a listing whose ["data"] is a list, the [else] branch of
    [sync] takes all jobs when [n_jobs] is [None], the last [n_jobs] of
    them (all, when there are fewer) when [n_jobs] is positive, all of them
    when [n_jobs] is 0, and all but the first [-n_jobs] when it is
    negative. *)
Theorem select_listed_takes_most_recent (listing : gmap string json)
    (l : list json) n_jobs (tr : events) :
  listing !! "data" = Some (JArr l) ->
  exists jobs,
    Logger.select_listed (Kw := Kw) (Return listing) n_jobs tr
    = (Return (Some jobs), tr ++ [EvList])
    /\ (n_jobs = None -> jobs = l)
    /\ (forall n, n_jobs = Some n ->
          (n = 0%Z -> jobs = l)
          /\ ((0 < n)%Z -> jobs = drop (length l - Z.to_nat n) l)
          /\ ((n < 0)%Z -> jobs = drop (Z.to_nat (- n)) l)).
Proof.
  intros Hdata.
  exists (drop (slice_start (length l) (Z.opp <$> n_jobs)) l). split; [|split].
  - unfold Logger.select_listed, bind, list_jobs, ret.
    assert (Hne : listing <> ∅).
    { intros ->. rewrite lookup_empty in Hdata. discriminate. }
    rewrite bool_decide_eq_false_2 by exact Hne.
    unfold get_is_None. rewrite Hdata. reflexivity.
  - intros ->. reflexivity.
  - intros n ->. cbn [fmap option_fmap option_map slice_start].
    destruct (Z.ltb_spec (- n) 0) as [Hneg|Hpos]; repeat split.
    + intros ->. lia.
    + intros _. f_equal. lia.
    + intros Hn. lia.
    + intros ->. replace (Z.to_nat (Z.min (- 0) (Z.of_nat (length l)))) with 0 by lia.
      reflexivity.
    + intros Hn. lia.
    + intros Hn.
      destruct (decide (Z.to_nat (- n) <= length l)) as [Hle|Hgt].
      * f_equal. lia.
      * replace (Z.to_nat (Z.min (- n) (Z.of_nat (length l)))) with (length l) by lia.
        rewrite !drop_ge by lia. reflexivity.
Qed.

(** X10.  When every call of [_log_fine_tune] returns, [sync] calls it
    once for each selected job, in order, and returns the completion
    message; the notice that nothing new was found is printed exactly when
    neither [id] nor [n_jobs] was given and no call returned a true
    value. *)
Theorem sync_logs_selected_jobs_in_order id n_jobs project entity force
    (kw : Kw) (tr tr' : events) jobs bs :
  select_jobs id n_jobs tr = (Return (Some jobs), tr') ->
  log_answers (nlogs tr') jobs project entity force
    (show_warnings_of id n_jobs) kw = Return <$> bs ->
  sync id n_jobs project entity force kw tr
  = (Return (Some completed_message),
     tr' ++ log_events jobs project entity force (show_warnings_of id n_jobs) kw
         ++ (if negb (show_warnings_of id n_jobs) && negb (existsb (fun b => b) bs)
             then [EvPrint no_new_message] else [])).
Proof.
  intros Hsel Hans. unfold Logger.sync, bind. cbn [negb].
  rewrite Hsel. fold (show_warnings_of id n_jobs).
  rewrite (log_all_returns _ _ _ _ _ jobs tr' bs Hans).
  destruct (negb (show_warnings_of id n_jobs) && negb (existsb (fun b => b) bs));
    cbn; rewrite <- ?app_assoc, ?app_nil_r; reflexivity.
Qed.

(** X11.  When a call of [_log_fine_tune] raises, [sync] raises the
    same exception: the jobs before that one have been logged, the ones
    after it are not attempted, and nothing is printed. *)
Theorem sync_stops_at_first_failing_job id n_jobs project entity force
    (kw : Kw) (tr tr' : events) jobs bs e rest :
  select_jobs id n_jobs tr = (Return (Some jobs), tr') ->
  log_answers (nlogs tr') jobs project entity force
    (show_warnings_of id n_jobs) kw = (Return <$> bs) ++ Raise e :: rest ->
  sync id n_jobs project entity force kw tr
  = (Raise e,
     tr' ++ log_events (take (S (length bs)) jobs) project entity force
              (show_warnings_of id n_jobs) kw).
Proof.
  intros Hsel Hans. unfold Logger.sync, bind. cbn [negb].
  rewrite Hsel. fold (show_warnings_of id n_jobs).
  rewrite (log_all_raises _ _ _ _ _ jobs tr' bs e rest Hans). reflexivity.
Qed.

(** X12.  An exception of [FineTune.list] or of [FineTune.retrieve]
    leaves [sync] as it is; the collaborator has been called once and no
    job is logged. *)
Theorem sync_propagates_collaborator_errors job_id i n_jobs project entity force
    (kw : Kw) (tr : events) e :
  (truthy job_id = false -> FineTune_list = Raise e ->
     sync job_id n_jobs project entity force kw tr = (Raise e, tr ++ [EvList]))
  /\ (i <> "" -> FineTune_retrieve i = Raise e ->
        sync (Some i) n_jobs project entity force kw tr
        = (Raise e, tr ++ [EvRetrieve i])).
Proof.
  split.
  - intros Hid Hlist.
    unfold Logger.sync, Logger.select_jobs, Logger.select_listed, bind,
      list_jobs, ret.
    cbn [negb]. rewrite Hid, Hlist. reflexivity.
  - intros Hi Hget.
    unfold Logger.sync, Logger.select_jobs, bind, retrieve, ret.
    cbn [negb truthy]. rewrite bool_decide_eq_false_2 by exact Hi.
    cbn [negb default]. change (id i) with i. rewrite Hget. reflexivity.
Qed.

End Runs.
End SyncRuns.

(** * Logger._get_config *)

Module ConfigFacts.
Import Logger LoggerConfig.

Lemma flatten_key_list (config : gmap string json) key :
  list_or_missing (config !! key) = true ->
  exists config',
    flatten_key config key = Return config'
    /\ config' !! key = flattened (config !! key)
    /\ forall k, k <> key -> config' !! k = config !! k.
Proof.
  unfold flatten_key, Py.first_if_any, Py.get. intros Hlist.
  destruct (config !! key) as [[| | | |[|x l]|]|] eqn:Hkey;
    try discriminate; cbn.
  - exists config. rewrite Hkey. auto.
  - exists config. rewrite Hkey. auto.
  - exists (<[ key := x ]> config). split; [reflexivity|]. split.
    + apply lookup_insert_eq.
    + intros k Hk. apply lookup_insert_ne. congruence.
  - exists config. rewrite Hkey. auto.
Qed.

Lemma flatten_keys_lists keys :
  NoDup keys ->
  forall config : gmap string json,
    (forall key, key ∈ keys -> list_or_missing (config !! key) = true) ->
    exists config',
      flatten_keys keys config = Return config'
      /\ forall k, config' !! k
                   = if bool_decide (k ∈ keys) then flattened (config !! k)
                     else config !! k.
Proof.
  induction 1 as [|key rest Hnotin _ IH]; intros config Hlist.
  - exists config. split; [reflexivity|]. intros k. reflexivity.
  - destruct (flatten_key_list config key) as (c1 & Hstep & Hkey & Hother).
    { apply Hlist. left. }
    destruct (IH c1) as (c2 & Hrest & Hlookup).
    { intros k Hk. rewrite Hother by (intros ->; contradiction).
      apply Hlist. right. exact Hk. }
    exists c2. cbn [flatten_keys]. rewrite Hstep. split; [exact Hrest|].
    intros k. rewrite Hlookup.
    destruct (decide (k = key)) as [->|Hne].
    + rewrite (bool_decide_eq_false_2 (key ∈ rest)) by exact Hnotin.
      rewrite (bool_decide_eq_true_2 (key ∈ key :: rest)) by left.
      exact Hkey.
    + rewrite Hother by exact Hne.
      destruct (decide (k ∈ rest)) as [Hin|Hout].
      * rewrite (bool_decide_eq_true_2 (k ∈ rest)) by exact Hin.
        rewrite (bool_decide_eq_true_2 (k ∈ key :: rest)) by (right; exact Hin).
        reflexivity.
      * rewrite (bool_decide_eq_false_2 (k ∈ rest)) by exact Hout.
        rewrite (bool_decide_eq_false_2 (k ∈ key :: rest)); [reflexivity|].
        intros Hin. apply elem_of_cons in Hin as [?|?]; contradiction.
Qed.

(** X13.  For a record whose three file fields are each missing,
    [None] or a list, [_get_config] does not raise; in its result a
    non-empty file list has given way to its first element, and every other
    entry is the one of the record. *)
Theorem get_config_takes_first_files (fine_tune : gmap string json) :
  (forall key, key ∈ file_keys -> list_or_missing (fine_tune !! key) = true) ->
  exists config,
    _get_config fine_tune = Return config
    /\ forall k, config !! k
                 = if bool_decide (k ∈ file_keys) then flattened (fine_tune !! k)
                   else fine_tune !! k.
Proof.
  intros Hlist. apply flatten_keys_lists; [|exact Hlist].
  unfold file_keys. repeat constructor; rewrite ?elem_of_cons, ?elem_of_nil; intuition discriminate.
Qed.

Lemma flatten_key_keeps_keys (config config' : gmap string json) key :
  flatten_key config key = Return config' ->
  dom config' = dom config
  /\ forall k, k <> key -> config' !! k = config !! k.
Proof.
  assert (Hsame : Return config = Return config' ->
                  dom config' = dom config
                  /\ forall k, k <> key -> config' !! k = config !! k).
  { intros H. assert (config = config') as <- by congruence. auto. }
  unfold flatten_key, Py.first_if_any, Py.get.
  destruct (config !! key) as [v|] eqn:Hkey;
    [change (default JNull (Some v)) with v|exact Hsame].
  destruct (Py.truthy v); [|exact Hsame].
  destruct (Py.len v) as [n|e]; [|discriminate].
  destruct (n =? 0); [exact Hsame|].
  destruct (Py.first v) as [x|e]; [|discriminate].
  intros H. assert (<[ key := x ]> config = config') as <- by congruence.
  split.
  - rewrite dom_insert_L. apply elem_of_dom_2 in Hkey.
    apply set_eq. intros k. rewrite elem_of_union, elem_of_singleton.
    split; [intros [->|?]; assumption|auto].
  - intros k Hk. apply lookup_insert_ne. congruence.
Qed.

Lemma flatten_keys_keeps_keys keys :
  forall config config' : gmap string json,
    flatten_keys keys config = Return config' ->
    dom config' = dom config
    /\ forall k, k ∉ keys -> config' !! k = config !! k.
Proof.
  induction keys as [|key rest IH]; intros config config'.
  - cbn [flatten_keys]. intros H.
    assert (config = config') as <- by congruence. auto.
  - cbn [flatten_keys].
    destruct (flatten_key config key) as [c1|e] eqn:Hstep; [|discriminate].
    intros Hrest. apply flatten_key_keeps_keys in Hstep as [Hdom1 Hother1].
    apply IH in Hrest as [Hdom2 Hother2]. split; [congruence|].
    intros k Hk. rewrite Hother2, Hother1; [reflexivity| |];
      intros ?; apply Hk; subst; [left|right; assumption].
Qed.

(** X14.  Whenever [_get_config] returns, the configuration has the
    keys of the record, and the entries under keys other than the three
    file fields are unchanged. *)
Theorem get_config_keeps_keys (fine_tune config : gmap string json) :
  _get_config fine_tune = Return config ->
  dom config = dom fine_tune
  /\ forall k, k ∉ file_keys -> config !! k = fine_tune !! k.
Proof. apply flatten_keys_keeps_keys. Qed.

End ConfigFacts.

(** * The wandb session and the decision to log a job *)

Module WandbFacts.
Import Logger LoggerRun.

Section Facts.

Context {Api Kw : Type}.
Variable render : json -> string.
Variable wandb_login : nat -> outcome bool.
Variable wandb_Api : nat -> outcome Api.
Variable api_run : nat -> Api -> string -> outcome run.
Variable upload_result :
  nat -> gmap string json -> string -> option string -> Kw -> outcome unit.

#[local] Abbreviation state := (st Api Kw).
#[local] Abbreviation _get_wandb_run :=
  (LoggerRun._get_wandb_run (Kw := Kw) wandb_login wandb_Api api_run).
#[local] Abbreviation _log_fine_tune :=
  (LoggerRun._log_fine_tune render wandb_login wandb_Api api_run upload_result).

(** The look-up of a run in a state that is logged in: no exception, no
    login, and a cached handle is used as it is. *)
Lemma get_wandb_run_logged_in run_path (s : state) :
  _logged_in s = true ->
  exists r api' more,
    _get_wandb_run run_path s = (Return r, St true api' (trace s ++ more))
    /\ (EvLogin ∉ more)
    /\ (forall api, _wandb_api s = Some api ->
          more = [EvRun api run_path] /\ api' = Some api)
    /\ (is_Some r -> is_Some api').
Proof.
  intros Hin. destruct s as [logged cached tr]. cbn in Hin. subst logged.
  unfold LoggerRun._get_wandb_run, _ensure_logged_in, bind, ret,
    get_logged_in, get_wandb_api, new_api, run_of, set_wandb_api, record, now.
  cbn [_logged_in _wandb_api trace negb].
  destruct cached as [api|].
  - destruct (api_run _ api run_path) as [wr|e].
    + exists (Some wr), (Some api), [EvRun api run_path]. repeat split.
      * intros H. apply list_elem_of_singleton in H. discriminate.
      * congruence.
      * congruence.
      * eauto.
    + exists None, (Some api), [EvRun api run_path]. repeat split.
      * intros H. apply list_elem_of_singleton in H. discriminate.
      * congruence.
      * congruence.
      * eauto.
  - destruct (wandb_Api _) as [api|e]; cbn [_logged_in _wandb_api trace].
    + destruct (api_run _ api run_path) as [wr|e].
      * exists (Some wr), (Some api), [EvApi; EvRun api run_path].
        rewrite <- app_assoc. repeat split; [|discriminate|discriminate|eauto].
        intros H. apply elem_of_cons in H as [H|H]; [discriminate|].
        apply list_elem_of_singleton in H. discriminate.
      * exists None, (Some api), [EvApi; EvRun api run_path].
        rewrite <- app_assoc. repeat split; [|discriminate|discriminate|eauto].
        intros H. apply elem_of_cons in H as [H|H]; [discriminate|].
        apply list_elem_of_singleton in H. discriminate.
    + exists None, None, [EvApi]. repeat split; [|discriminate|discriminate|].
      * intros H. apply list_elem_of_singleton in H. discriminate.
      * intros [x Hx]. discriminate.
Qed.

(** X15.  [_get_wandb_run] raises only when the class is not logged in
    and [wandb.login()] raises or returns a false value (then with the
    message that a login is needed); nothing but the login has been tried
    then.  Exceptions of [wandb.Api()] and of the look-up never escape. *)
Theorem get_wandb_run_raises_only_at_login run_path (s : state) e :
  (_get_wandb_run run_path s).1 = Raise e ->
  _logged_in s = false
  /\ (wandb_login (now s) = Raise e
      \/ (wandb_login (now s) = Return false /\ e = login_required))
  /\ (_get_wandb_run run_path s).2 = record EvLogin s.
Proof.
  destruct (_logged_in s) eqn:Hin.
  - destruct (get_wandb_run_logged_in run_path s Hin) as (r & api' & more & -> & _).
    discriminate.
  - unfold LoggerRun._get_wandb_run, _ensure_logged_in, bind, ret,
      get_logged_in, login.
    rewrite Hin. cbn [negb].
    destruct (wandb_login (now s)) as [[|]|e'].
    + cbn [set_logged_in]. intros Hraise. exfalso. revert Hraise.
      pose proof (get_wandb_run_logged_in run_path
                    (St true (_wandb_api (record EvLogin s))
                       (trace (record EvLogin s))) eq_refl)
        as (r & api' & more & Heq & _).
      unfold LoggerRun._get_wandb_run, _ensure_logged_in, bind, ret,
        get_logged_in in Heq.
      cbn [_logged_in negb] in Heq. rewrite Heq. discriminate.
    + cbn. intros [= <-]. repeat split. right. split; reflexivity.
    + cbn. intros [= <-]. repeat split. left. reflexivity.
Qed.

(** A look-up that does not raise leaves the class logged in. *)
Lemma get_wandb_run_returns_logged_in run_path (s : state) r :
  (_get_wandb_run run_path s).1 = Return r ->
  _logged_in (_get_wandb_run run_path s).2 = true
  /\ (is_Some r -> is_Some (_wandb_api (_get_wandb_run run_path s).2)).
Proof.
  destruct (_logged_in s) eqn:Hin.
  - destruct (get_wandb_run_logged_in run_path s Hin)
      as (r' & api' & more & -> & _ & _ & Hsome).
    cbn. intros [= <-]. split; [reflexivity|exact Hsome].
  - unfold LoggerRun._get_wandb_run, _ensure_logged_in, bind, ret,
      get_logged_in, login.
    rewrite Hin. cbn [negb].
    destruct (wandb_login (now s)) as [[|]|e']; [|discriminate|discriminate].
    cbn [set_logged_in].
    pose proof (get_wandb_run_logged_in run_path
                  (St true (_wandb_api (record EvLogin s))
                     (trace (record EvLogin s))) eq_refl)
      as (r' & api' & more & Heq & _ & _ & Hsome).
    unfold LoggerRun._get_wandb_run, _ensure_logged_in, bind, ret,
      get_logged_in in Heq.
    cbn [_logged_in negb] in Heq. rewrite Heq.
    cbn. intros [= <-]. split; [reflexivity|exact Hsome].
Qed.

(** X16.  After a [_get_wandb_run] that did not raise, the next one
    does not raise either and does not log in again; when the first one
    found a run, the next one is the single look-up with the cached API
    handle. *)
Theorem get_wandb_run_sets_up_session_once path1 path2 (s : state) r1 :
  (_get_wandb_run path1 s).1 = Return r1 ->
  exists r2 more,
    (_get_wandb_run path2 (_get_wandb_run path1 s).2).1 = Return r2
    /\ trace (_get_wandb_run path2 (_get_wandb_run path1 s).2).2
       = trace (_get_wandb_run path1 s).2 ++ more
    /\ (EvLogin ∉ more)
    /\ (is_Some r1 -> exists api, more = [EvRun api path2]).
Proof.
  intros Hfirst.
  destruct (get_wandb_run_returns_logged_in path1 s r1 Hfirst) as [Hin Hapi].
  destruct (get_wandb_run_logged_in path2 _ Hin)
    as (r2 & api' & more & Heq & Hnologin & Hcached & _).
  exists r2, more. rewrite Heq. cbn [fst snd trace].
  repeat split; [exact Hnologin|].
  intros Hfound. destruct (Hapi Hfound) as [api Hsome].
  exists api. apply (Hcached api Hsome).
Qed.

Lemma now_print (s : state) msg : now (record (EvPrint msg) s) = now s.
Proof.
  unfold now, exchanges, record. cbn [trace].
  rewrite List.filter_app, length_app. cbn. lia.
Qed.

Lemma exchanges_app (tr1 tr2 : list (event Api Kw)) :
  exchanges (tr1 ++ tr2) = exchanges tr1 ++ exchanges tr2.
Proof. apply List.filter_app. Qed.

Lemma exchanges_prints (prints : list (event Api Kw)) :
  Forall (fun ev => is_print ev = true) prints -> exchanges prints = [].
Proof.
  induction 1 as [|ev prints Hev _ IH]; [reflexivity|].
  unfold exchanges in *. cbn. rewrite Hev. exact IH.
Qed.

(** The test that sends [_log_fine_tune] past its first [return]. *)
Lemma status_gate_open sw status :
  sw = false \/ is_succeeded status = true ->
  sw && negb (is_succeeded status) = false.
Proof. intros [->| ->]; [reflexivity|]. apply andb_false_r. Qed.

(** What [warn_about_run] does: it prints. *)
Lemma warn_about_run_prints fine_tune_id wandb_run force (s : state) :
  exists prints,
    Forall (fun ev => is_print ev = true) prints
    /\ warn_about_run render fine_tune_id wandb_run force s
       = (tt, St (_logged_in s) (_wandb_api s) (trace s ++ prints)).
Proof.
  unfold warn_about_run, bind, ret, print, record.
  destruct (is_succeeded (run_status wandb_run)), force; cbn;
    rewrite <- ?app_assoc; eexists; (split; [|reflexivity]);
    repeat constructor.
Qed.

(** X17.  With warnings switched on, a job whose status is not
    ["succeeded"] is answered by one printed notice and the value [None]:
    wandb is not contacted, not even for the login. *)
Theorem log_fine_tune_skips_unsuccessful_job fine_tune project entity force
    (kw : Kw) (s : state) :
  is_succeeded (Py.get fine_tune "status") = false ->
  _log_fine_tune fine_tune project entity force true kw s
  = (Return false,
     record (EvPrint (not_succeeded_message render (Py.get fine_tune "id")
                        (Py.get fine_tune "status"))) s).
Proof.
  intros Hstatus. unfold LoggerRun._log_fine_tune. rewrite Hstatus. reflexivity.
Qed.

(** Past the status test and the look-up, [_log_fine_tune] prints, and
    then either returns (a run that succeeded was found) or uploads. *)
Lemma log_fine_tune_after_lookup fine_tune project entity force sw
    (kw : Kw) (s s1 : state) found :
  sw = false \/ is_succeeded (Py.get fine_tune "status") = true ->
  _get_wandb_run (run_path_of render project entity (Py.get fine_tune "id")) s
  = (Return found, s1) ->
  exists prints,
    Forall (fun ev => is_print ev = true) prints
    /\ _log_fine_tune fine_tune project entity force sw kw s
       = if found_succeeded found then
           (Return false,
            St (_logged_in s1) (_wandb_api s1) (trace s1 ++ prints))
         else
           (match upload_result (now s1) fine_tune project entity kw with
            | Return _ => Return true
            | Raise e => Raise e
            end,
            St (_logged_in s1) (_wandb_api s1)
              (trace s1 ++ prints ++ [EvUpload fine_tune project entity kw])).
Proof.
  intros Hgate Hfound.
  unfold LoggerRun._log_fine_tune. rewrite (status_gate_open _ _ Hgate).
  unfold bind at 1. rewrite Hfound.
  assert (Hup : forall prints,
    Forall (fun ev => is_print ev = true) prints ->
    (let! u := upload upload_result fine_tune project entity kw in
     match u with
     | Return _ => ret (Return true)
     | Raise e => ret (Raise e)
     end) (St (_logged_in s1) (_wandb_api s1) (trace s1 ++ prints))
    = (match upload_result (now s1) fine_tune project entity kw with
       | Return _ => Return true
       | Raise e => Raise e
       end,
       St (_logged_in s1) (_wandb_api s1)
         (trace s1 ++ prints ++ [EvUpload fine_tune project entity kw]))).
  { intros prints Hprints. unfold bind, upload, ret, record, now.
    cbn [trace _logged_in _wandb_api].
    rewrite exchanges_app, (exchanges_prints prints Hprints), app_nil_r.
    rewrite <- app_assoc.
    destruct (upload_result _ fine_tune project entity kw); reflexivity. }
  assert (Hs1 : s1 = St (_logged_in s1) (_wandb_api s1) (trace s1 ++ []))
    by (rewrite app_nil_r; destruct s1; reflexivity).
  destruct found as [wandb_run|]; cbn [found_succeeded].
  - unfold bind at 1. unfold bind at 1.
    destruct sw.
    + destruct (warn_about_run_prints (Py.get fine_tune "id") wandb_run force s1)
        as (prints & Hprints & ->).
      unfold ret at 1. exists prints. split; [exact Hprints|].
      destruct (is_succeeded (run_status wandb_run)); [reflexivity|].
      apply Hup. exact Hprints.
    + unfold ret at 1. unfold ret at 1. exists []. split; [constructor|].
      destruct (is_succeeded (run_status wandb_run)).
      * unfold ret. rewrite <- Hs1. reflexivity.
      * rewrite Hs1 at 1. apply (Hup [] ltac:(constructor)).
  - unfold bind at 1. unfold ret at 1.
    exists []. split; [constructor|].
    rewrite Hs1 at 1. apply (Hup [] ltac:(constructor)).
Qed.

Lemma log_fine_tune_lookup_raises fine_tune project entity force sw
    (kw : Kw) (s s1 : state) e :
  sw = false \/ is_succeeded (Py.get fine_tune "status") = true ->
  _get_wandb_run (run_path_of render project entity (Py.get fine_tune "id")) s
  = (Raise e, s1) ->
  _log_fine_tune fine_tune project entity force sw kw s = (Raise e, s1).
Proof.
  intros Hgate Hlookup.
  unfold LoggerRun._log_fine_tune. rewrite (status_gate_open _ _ Hgate).
  unfold bind at 1. rewrite Hlookup. reflexivity.
Qed.

(** X18.  When the look-up finds a run whose status is ["succeeded"],
    [_log_fine_tune] returns [None] without uploading, with [force] set or
    not: after the look-up it only prints. *)
Theorem log_fine_tune_keeps_successful_run fine_tune project entity force sw
    (kw : Kw) (s s1 : state) wandb_run :
  sw = false \/ is_succeeded (Py.get fine_tune "status") = true ->
  _get_wandb_run (run_path_of render project entity (Py.get fine_tune "id")) s
  = (Return (Some wandb_run), s1) ->
  is_succeeded (run_status wandb_run) = true ->
  (_log_fine_tune fine_tune project entity force sw kw s).1 = Return false
  /\ exchanges (trace (_log_fine_tune fine_tune project entity force sw kw s).2)
     = exchanges (trace s1).
Proof.
  intros Hgate Hfound Hstatus.
  destruct (log_fine_tune_after_lookup fine_tune project entity force sw kw
              s s1 (Some wandb_run) Hgate Hfound) as (prints & Hprints & ->).
  cbn [found_succeeded]. rewrite Hstatus. cbn [fst snd trace].
  split; [reflexivity|].
  rewrite exchanges_app, (exchanges_prints prints Hprints). apply app_nil_r.
Qed.


(** X20.  [force] changes nothing but what is printed: the result
    of [_log_fine_tune], its exchanges with wandb and the session state are
    the same for both values. *)
Theorem log_fine_tune_force_changes_prints_only fine_tune project entity
    force force' sw (kw : Kw) (s : state) :
  (_log_fine_tune fine_tune project entity force sw kw s).1
  = (_log_fine_tune fine_tune project entity force' sw kw s).1
  /\ exchanges (trace (_log_fine_tune fine_tune project entity force sw kw s).2)
     = exchanges (trace (_log_fine_tune fine_tune project entity force' sw kw s).2)
  /\ _logged_in (_log_fine_tune fine_tune project entity force sw kw s).2
     = _logged_in (_log_fine_tune fine_tune project entity force' sw kw s).2
  /\ _wandb_api (_log_fine_tune fine_tune project entity force sw kw s).2
     = _wandb_api (_log_fine_tune fine_tune project entity force' sw kw s).2.
Proof.
  destruct (sw && negb (is_succeeded (Py.get fine_tune "status"))) eqn:Hgate.
  { unfold LoggerRun._log_fine_tune. rewrite Hgate. repeat split. }
  assert (Hopen : sw = false \/ is_succeeded (Py.get fine_tune "status") = true).
  { destruct sw; [right|left; reflexivity].
    cbn in Hgate. apply negb_false_iff. exact Hgate. }
  destruct (_get_wandb_run
              (run_path_of render project entity (Py.get fine_tune "id")) s)
    as [[found|e] s1] eqn:Hlookup.
  - destruct (log_fine_tune_after_lookup fine_tune project entity force sw kw
                s s1 found Hopen Hlookup) as (prints & Hprints & ->).
    destruct (log_fine_tune_after_lookup fine_tune project entity force' sw kw
                s s1 found Hopen Hlookup) as (prints' & Hprints' & ->).
    destruct (found_succeeded found); cbn [fst snd trace _logged_in _wandb_api];
      rewrite !exchanges_app, (exchanges_prints prints Hprints),
        (exchanges_prints prints' Hprints'); repeat split.
  - rewrite !(log_fine_tune_lookup_raises fine_tune project entity _ sw kw
                s s1 e Hopen Hlookup).
    repeat split.
Qed.

End Facts.
End WandbFacts.

(** * The artifacts of a job *)

Module ArtifactFacts.
Import Logger LoggerArtifacts.

Section Facts.

Variable render : json -> string.
Variable path_name : string -> string.
Variable path_stem : string -> string.
Variable downloaded : nat -> json -> outcome string.
Variable answer : nat -> event -> outcome unit.

#[local] Abbreviation _log_artifact_inputs :=
  (LoggerArtifacts._log_artifact_inputs render path_name path_stem
     downloaded answer).
#[local] Abbreviation _log_artifacts :=
  (LoggerArtifacts._log_artifacts render path_name path_stem downloaded answer).
#[local] Abbreviation add_table := (LoggerArtifacts.add_table render answer).

(** The table step prints at most, and does not raise. *)
Lemma add_table_events file_id content stem (tr : list event) :
  exists more,
    add_table file_id content stem tr = (tt, tr ++ more)
    /\ Forall (fun ev => is_job_details ev = false) more.
Proof.
  unfold LoggerArtifacts.add_table, bind, perform, print, ret.
  destruct (answer (length tr) (EvMakeTable content)).
  - destruct (answer _ (EvAddTable stem)); rewrite <- ?app_assoc;
      eexists; (split; [reflexivity|]); repeat constructor.
  - rewrite <- app_assoc. eexists. split; [reflexivity|]. repeat constructor.
Qed.

(** The artifact of an input file leaves no job-details event. *)
Lemma log_artifact_inputs_events file prefix artifact_type (tr : list event) :
  (forall filename,
     is_job_details (EvArtifact (prefix ++ "-" ++ filename) artifact_type file)
     = false) ->
  exists r more,
    _log_artifact_inputs file prefix artifact_type tr = (r, tr ++ more)
    /\ Forall (fun ev => is_job_details ev = false) more.
Proof.
  intros Hname. unfold LoggerArtifacts._log_artifact_inputs.
  assert (Hstop : forall e : exn,
            exists r more,
              ret (Raise e) tr = (r : outcome unit, tr ++ more)
              /\ Forall (fun ev => is_job_details ev = false) more).
  { intros e. exists (Raise e), []. rewrite app_nil_r. split; [reflexivity|constructor]. }
  destruct (Py.getitem file "id") as [file_id|e]; [|apply Hstop].
  destruct (Py.getitem file "filename") as [name|e]; [|apply Hstop].
  destruct (path_of name) as [name'|e]; [|apply Hstop].
  unfold bind, download, perform, print, ret.
  destruct (downloaded (length tr) file_id) as [content|e].
  2:{ rewrite <- app_assoc. eexists _, _. split; [reflexivity|]. repeat constructor. }
  destruct (answer _ (EvArtifact _ artifact_type file)) as [[]|e].
  2:{ rewrite <- app_assoc. eexists _, _. split; [reflexivity|].
      repeat constructor. apply Hname. }
  destruct (answer _ (EvWriteFile _ content)) as [[]|e].
  2:{ rewrite <- !app_assoc. eexists _, _. split; [reflexivity|].
      repeat constructor. apply Hname. }
  destruct (add_table_events file_id content (path_stem name')
              (((tr ++ [EvDownload file_id])
                ++ [EvArtifact (prefix ++ "-" ++ path_name name') artifact_type file])
               ++ [EvWriteFile (path_name name') content]))
    as (more & -> & Hmore).
  rewrite <- !app_assoc. eexists _, _. split; [reflexivity|].
  repeat constructor; [apply Hname|].
  apply Forall_app. split; [exact Hmore|repeat constructor].
Qed.

(** There is nothing to read in a missing file. *)
Lemma log_artifact_inputs_None prefix artifact_type (tr : list event) :
  _log_artifact_inputs JNull prefix artifact_type tr
  = (Raise Py.not_subscriptable, tr).
Proof. reflexivity. Qed.

(** X21.  When the training files or the validation files of a job
    are missing, [None] or empty, [_log_artifacts] raises, and no event of
    the job-details artifact occurs: the missing file is handed to
    [_log_artifact_inputs] as [None]. *)
Theorem log_artifacts_needs_both_files (fine_tune : gmap string json)
    (tr : list event) :
  Py.first_if_any fine_tune "training_files" = Return None
  \/ Py.first_if_any fine_tune "validation_files" = Return None ->
  exists e more,
    _log_artifacts fine_tune tr = (Raise e, tr ++ more)
    /\ Forall (fun ev => is_job_details ev = false) more.
Proof.
  intros Hmissing. unfold LoggerArtifacts._log_artifacts, first_file.
  assert (Hstop : forall e : exn,
            exists e' more,
              ret (Raise e) tr = (Raise e' : outcome unit, tr ++ more)
              /\ Forall (fun ev => is_job_details ev = false) more).
  { intros e. exists e, []. rewrite app_nil_r. split; [reflexivity|constructor]. }
  destruct (Py.first_if_any fine_tune "training_files") as [training|e];
    [|apply Hstop].
  destruct (Py.first_if_any fine_tune "validation_files") as [validation|e];
    [|apply Hstop].
  unfold bind at 1.
  destruct (log_artifact_inputs_events (default JNull training) "train"
              "training_files" tr) as (r1 & more1 & Hfirst & Hmore1);
    [reflexivity|].
  destruct training as [training|].
  - destruct Hmissing as [[=]|[= ->]].
    rewrite Hfirst. destruct r1 as [[]|e].
    + unfold bind at 1. cbn [default]. rewrite log_artifact_inputs_None.
      exists Py.not_subscriptable, more1. split; [reflexivity|exact Hmore1].
    + exists e, more1. split; [reflexivity|exact Hmore1].
  - cbn [default]. rewrite log_artifact_inputs_None.
    exists Py.not_subscriptable, []. rewrite app_nil_r.
    split; [reflexivity|constructor].
Qed.

(** X22.  A file whose download raises is passed over:
    [_log_artifact_inputs] prints its notice and returns normally, and no
    artifact is created. *)
Theorem log_artifact_inputs_skips_unreadable_file file prefix artifact_type
    (tr : list event) file_id name e :
  Py.getitem file "id" = Return file_id ->
  Py.getitem file "filename" = Return (JStr name) ->
  downloaded (length tr) file_id = Raise e ->
  _log_artifact_inputs file prefix artifact_type tr
  = (Return tt,
     tr ++ [EvDownload file_id;
            EvPrint (not_retrieved_message render file_id)]).
Proof.
  intros Hid Hname Hdown. unfold LoggerArtifacts._log_artifact_inputs.
  rewrite Hid, Hname. cbn [path_of]. unfold bind, download, print, ret.
  rewrite Hdown, <- app_assoc. reflexivity.
Qed.

(** X23.  Once the file is downloaded and written into its
    artifact, the artifact is used whatever becomes of the table: an
    exception of [_make_table] or of [artifact.add] is answered by a print,
    and [use_artifact] is the last call, whose outcome is the result. *)
Theorem log_artifact_inputs_uses_artifact_without_table file prefix
    artifact_type (tr : list event) file_id name content :
  Py.getitem file "id" = Return file_id ->
  Py.getitem file "filename" = Return (JStr name) ->
  downloaded (length tr) file_id = Return content ->
  answer (length tr + 1)
    (EvArtifact (prefix ++ "-" ++ path_name name) artifact_type file)
  = Return tt ->
  answer (length tr + 2) (EvWriteFile (path_name name) content)
  = Return tt ->
  exists table,
    _log_artifact_inputs file prefix artifact_type tr
    = (answer (length tr + 4 + length table)
         (EvUseArtifact [file_id; JStr "latest"]),
       tr ++ [EvDownload file_id;
              EvArtifact (prefix ++ "-" ++ path_name name) artifact_type file;
              EvWriteFile (path_name name) content;
              EvMakeTable content]
          ++ table ++ [EvUseArtifact [file_id; JStr "latest"]])
    /\ (table = [EvAddTable (path_stem name)]
        \/ table = [EvAddTable (path_stem name);
                    EvPrint (not_json_message render file_id)]
        \/ table = [EvPrint (not_json_message render file_id)]).
Proof.
  intros Hid Hname Hdown Hart Hwrite.
  unfold LoggerArtifacts._log_artifact_inputs.
  rewrite Hid, Hname. cbn [path_of].
  unfold bind, download, perform, print, ret, LoggerArtifacts.add_table.
  rewrite Hdown. rewrite length_app. cbn [length]. rewrite Hart.
  rewrite !length_app. cbn [length].
  replace (length tr + 1 + 1) with (length tr + 2) by lia. rewrite Hwrite.
  unfold bind, perform, print, ret. rewrite !length_app. cbn [length].
  destruct (answer _ (EvMakeTable content)) as [[]|e1].
  - destruct (answer _ (EvAddTable (path_stem name))) as [[]|e2].
    + exists [EvAddTable (path_stem name)]. split; [|auto].
      rewrite !length_app. cbn [length]. rewrite <- !app_assoc. cbn [app].
      f_equal. f_equal. lia.
    + exists [EvAddTable (path_stem name);
              EvPrint (not_json_message render file_id)]. split; [|auto].
      rewrite !length_app. cbn [length]. rewrite <- !app_assoc. cbn [app].
      f_equal. f_equal. lia.
  - exists [EvPrint (not_json_message render file_id)]. split; [|auto].
    rewrite !length_app. cbn [length]. rewrite <- !app_assoc. cbn [app].
    f_equal. f_equal. lia.
Qed.

End Facts.
End ArtifactFacts.

(** * The further statements at concrete inputs *)

Module MoreInstances.
Import Examples MoreExamples.

(** Three cold answers within a timeout of 30 on the ten-unit clock: the
    third check reads exactly 30 and still lets the loop go on. *)
Lemma create_returns_first_other_answer_witness :
  (ChatCompletion.create (warm_after 3) clock10 5 (Some 30%Z) chat_args
     ChatCompletion.init).1 = Some (Return "chat.completion")
  /\ ChatCompletion.calls
       (ChatCompletion.create (warm_after 3) clock10 5 (Some 30%Z) chat_args
          ChatCompletion.init).2 = 3 + 1
  /\ ChatCompletion.ticks
       (ChatCompletion.create (warm_after 3) clock10 5 (Some 30%Z) chat_args
          ChatCompletion.init).2 = 1 + 3.
Proof.
  apply (RetryRuns.create_returns_first_other_answer
           (warm_after 3) clock10 chat_args (Some 30%Z) 3 5).
  - intros i Hi. destruct i as [|[|[|i]]]; [reflexivity..|lia].
  - reflexivity.
  - intros t i [= <-] Hi.
    assert (i = 1 \/ i = 2 \/ i = 3) as [->|[->| ->]] by lia; discriminate.
  - lia.
Defined.


Lemma create_result_is_last_answer_witness :
  warm_after 2
    (ChatCompletion.calls
       (ChatCompletion.create (warm_after 2) clock10 4 None chat_args
          ChatCompletion.init).2 - 1) chat_args
  = Return "chat.completion".
Proof.
  destruct (RetryRuns.create_result_is_last_answer
              (warm_after 2) clock10 chat_args None 4 (Return "chat.completion"))
    as ((_ & Hlast & _) & _).
  - reflexivity.
  - exact Hlast.
Defined.


(** Asked for by id, the job goes to the logger without its events. *)
Lemma sync_by_id_logs_that_job_witness :
  Logger.sync (Kw := unit) true retrieved (Return listing_three) always_logs
    (Some "ft-1") (Some 2%Z) "GPT-3" None false tt []
  = (Return (Some Logger.completed_message),
     [Logger.EvRetrieve "ft-1";
      Logger.EvLogFineTune (Logger.JObj (delete "events" job_with_events))
        "GPT-3" None false true tt]).
Proof.
  apply (SyncRuns.sync_by_id_logs_that_job retrieved (Return listing_three)
           always_logs "ft-1" (Some 2%Z) "GPT-3" None false tt []
           job_with_events true).
  - discriminate.
  - reflexivity.
  - reflexivity.
Defined.

(** The two most recent of three jobs. *)
Lemma select_listed_takes_most_recent_witness :
  Logger.select_listed (Kw := unit) (Return listing_three) (Some 2%Z) []
  = (Return (Some (drop 1 three_jobs)), [Logger.EvList]).
Proof.
  destruct (SyncRuns.select_listed_takes_most_recent (Kw := unit)
              listing_three three_jobs (Some 2%Z) [])
    as (jobs & Hsel & _ & Hn).
  - vm_compute. reflexivity.
  - destruct (Hn 2%Z eq_refl) as (_ & Hlast & _).
    rewrite (Hlast ltac:(lia)) in Hsel. exact Hsel.
Defined.

(** All three jobs are logged in the order of the listing. *)
Lemma sync_logs_selected_jobs_in_order_witness :
  Logger.sync (Kw := unit) true retrieved (Return listing_three) always_logs
    None None "GPT-3" (Some "me") false tt []
  = (Return (Some Logger.completed_message),
     [Logger.EvList]
     ++ SyncTrace.log_events three_jobs "GPT-3" (Some "me") false false tt
     ++ []).
Proof.
  apply (SyncRuns.sync_logs_selected_jobs_in_order retrieved
           (Return listing_three) always_logs None None "GPT-3" (Some "me")
           false tt [] [Logger.EvList] three_jobs [true; true; true]).
  - vm_compute. reflexivity.
  - reflexivity.
Defined.

(** The second job fails: the third is not attempted. *)
Lemma sync_stops_at_first_failing_job_witness :
  Logger.sync (Kw := unit) true retrieved (Return listing_three) fails_second
    None None "GPT-3" None false tt []
  = (Raise unreachable,
     [Logger.EvList]
     ++ SyncTrace.log_events (take 2 three_jobs) "GPT-3" None false false tt).
Proof.
  apply (SyncRuns.sync_stops_at_first_failing_job retrieved
           (Return listing_three) fails_second None None "GPT-3" None
           false tt [] [Logger.EvList] three_jobs [true] unreachable
           [Return true]).
  - vm_compute. reflexivity.
  - reflexivity.
Defined.

(** An unknown id: the error of the collaborator comes back. *)
Lemma sync_propagates_collaborator_errors_witness :
  Logger.sync (Kw := unit) true never_retrieved (Raise unreachable) always_logs
    None None "GPT-3" None false tt []
  = (Raise unreachable, [Logger.EvList])
  /\ Logger.sync (Kw := unit) true never_retrieved (Raise unreachable)
       always_logs (Some "ft-0") None "GPT-3" None false tt []
     = (Raise (Exn InvalidRequestError "No such fine-tune"),
        [Logger.EvRetrieve "ft-0"]).
Proof.
  split.
  - destruct (SyncRuns.sync_propagates_collaborator_errors never_retrieved
                (Raise unreachable) always_logs None "ft-0" None "GPT-3"
                None false tt [] unreachable) as [Hlist _].
    apply Hlist; reflexivity.
  - destruct (SyncRuns.sync_propagates_collaborator_errors never_retrieved
                (Raise unreachable) always_logs None "ft-0" None "GPT-3"
                None false tt []
                (Exn InvalidRequestError "No such fine-tune")) as [_ Hget].
    apply Hget; [discriminate|reflexivity].
Defined.

(** The first training file takes the place of the list; the empty list
    of validation files stays. *)
Lemma get_config_takes_first_files_witness :
  exists config,
    LoggerConfig._get_config half_job = Return config
    /\ config !! "training_files" = Some train_file
    /\ config !! "validation_files" = Some (Logger.JArr [])
    /\ config !! "id" = Some (Logger.JStr "ft-9").
Proof.
  destruct (ConfigFacts.get_config_takes_first_files half_job)
    as (config & Hconfig & Hlookup).
  - intros key Hin. unfold LoggerConfig.file_keys in Hin.
    repeat (apply elem_of_cons in Hin as [->|Hin]; [vm_compute; reflexivity|]).
    apply elem_of_nil in Hin. contradiction.
  - exists config. split; [exact Hconfig|].
    rewrite !Hlookup. repeat split.
Defined.

Lemma get_config_keeps_keys_witness :
  dom half_job_config = dom half_job
  /\ half_job_config !! "id" = half_job !! "id".
Proof.
  destruct (ConfigFacts.get_config_keeps_keys half_job half_job_config)
    as [Hdom Hother].
  - vm_compute. reflexivity.
  - split; [exact Hdom|]. apply Hother.
    unfold LoggerConfig.file_keys. rewrite !elem_of_cons, elem_of_nil.
    intros [H|[H|[H|[]]]]; discriminate.
Defined.

(** Nobody is let in: the look-up raises and has only tried to log in. *)
Lemma get_wandb_run_raises_only_at_login_witness :
  (LoggerRun._get_wandb_run (Kw := unit) keeps_out gives_api finds_old_run
     "GPT-3/ft-1" LoggerRun.init).2
  = LoggerRun.record LoggerRun.EvLogin LoggerRun.init.
Proof.
  destruct (WandbFacts.get_wandb_run_raises_only_at_login (Kw := unit)
              keeps_out gives_api finds_old_run "GPT-3/ft-1" LoggerRun.init
              LoggerRun.login_required) as (_ & _ & Hstate).
  - reflexivity.
  - exact Hstate.
Defined.

(** Two look-ups in a row: the second is a single exchange. *)
Lemma get_wandb_run_sets_up_session_once_witness :
  exists r2 more,
    (LoggerRun._get_wandb_run (Kw := unit) lets_in gives_api finds_old_run
       "GPT-3/ft-2"
       (LoggerRun._get_wandb_run (Kw := unit) lets_in gives_api finds_old_run
          "GPT-3/ft-1" LoggerRun.init).2).1 = Return r2
    /\ LoggerRun.trace
         (LoggerRun._get_wandb_run (Kw := unit) lets_in gives_api finds_old_run
            "GPT-3/ft-2"
            (LoggerRun._get_wandb_run (Kw := unit) lets_in gives_api
               finds_old_run "GPT-3/ft-1" LoggerRun.init).2).2
       = LoggerRun.trace
           (LoggerRun._get_wandb_run (Kw := unit) lets_in gives_api
              finds_old_run "GPT-3/ft-1" LoggerRun.init).2 ++ more
    /\ (LoggerRun.EvLogin ∉ more)
    /\ (is_Some (Some old_run) ->
        exists api, more = [LoggerRun.EvRun api "GPT-3/ft-2"]).
Proof.
  apply (WandbFacts.get_wandb_run_sets_up_session_once (Kw := unit)
           lets_in gives_api finds_old_run "GPT-3/ft-1" "GPT-3/ft-2"
           LoggerRun.init (Some old_run)).
  reflexivity.
Defined.

(** A failed job asked for by id: a notice, and wandb is left alone. *)
Lemma log_fine_tune_skips_unsuccessful_job_witness :
  LoggerRun._log_fine_tune render lets_in gives_api finds_old_run uploads
    (job "ft-2" "failed") "GPT-3" None true true tt LoggerRun.init
  = (Return false,
     LoggerRun.record
       (LoggerRun.EvPrint
          (LoggerRun.not_succeeded_message render (Logger.JStr "ft-2")
             (Logger.JStr "failed")))
       LoggerRun.init).
Proof.
  apply (WandbFacts.log_fine_tune_skips_unsuccessful_job render lets_in
           gives_api finds_old_run uploads (job "ft-2" "failed") "GPT-3" None
           true tt LoggerRun.init).
  reflexivity.
Defined.

(** The run of [ft-1] succeeded before: forced or not, nothing is
    uploaded. *)
Lemma log_fine_tune_keeps_successful_run_witness :
  (LoggerRun._log_fine_tune render lets_in gives_api finds_old_run uploads
     (job "ft-1" "succeeded") "GPT-3" (Some "me") true true tt
     LoggerRun.init).1 = Return false
  /\ LoggerRun.exchanges
       (LoggerRun.trace
          (LoggerRun._log_fine_tune render lets_in gives_api finds_old_run
             uploads (job "ft-1" "succeeded") "GPT-3" (Some "me") true true tt
             LoggerRun.init).2)
     = [LoggerRun.EvLogin; LoggerRun.EvApi; LoggerRun.EvRun tt "me/GPT-3/ft-1"].
Proof.
  apply (WandbFacts.log_fine_tune_keeps_successful_run render lets_in
           gives_api finds_old_run uploads (job "ft-1" "succeeded") "GPT-3"
           (Some "me") true true tt LoggerRun.init
           (LoggerRun.St true (Some tt)
              [LoggerRun.EvLogin; LoggerRun.EvApi;
               LoggerRun.EvRun tt "me/GPT-3/ft-1"])
           old_run).
  - right. reflexivity.
  - reflexivity.
  - reflexivity.
Defined.


(** No validation file: the training file is stored, then the call
    fails, and the job details are not stored. *)
Lemma log_artifacts_needs_both_files_witness :
  exists e more,
    LoggerArtifacts._log_artifacts render path_name path_stem downloads
      accepts half_job []
    = (Raise e, [] ++ more)
    /\ Forall (fun ev => LoggerArtifacts.is_job_details ev = false) more.
Proof.
  apply (ArtifactFacts.log_artifacts_needs_both_files render path_name
           path_stem downloads accepts half_job []).
  right. reflexivity.
Defined.

Lemma log_artifact_inputs_skips_unreadable_file_witness :
  LoggerArtifacts._log_artifact_inputs render path_name path_stem
    download_denied accepts train_file "train" "training_files" []
  = (Return tt,
     [] ++ [LoggerArtifacts.EvDownload (Logger.JStr "file-1");
            LoggerArtifacts.EvPrint
              (LoggerArtifacts.not_retrieved_message render
                 (Logger.JStr "file-1"))]).
Proof.
  apply (ArtifactFacts.log_artifact_inputs_skips_unreadable_file render
           path_name path_stem download_denied accepts train_file "train"
           "training_files" [] (Logger.JStr "file-1") "train.jsonl"
           (Exn PermissionError "Not allowed to download files"));
    reflexivity.
Defined.

Lemma log_artifact_inputs_uses_artifact_without_table_witness :
  exists table,
    LoggerArtifacts._log_artifact_inputs render path_name path_stem
      downloads no_table train_file "train" "training_files" []
    = (no_table (0 + 4 + length table)
         (LoggerArtifacts.EvUseArtifact
            [Logger.JStr "file-1"; Logger.JStr "latest"]),
       [] ++ [LoggerArtifacts.EvDownload (Logger.JStr "file-1");
              LoggerArtifacts.EvArtifact "train-train.jsonl" "training_files"
                train_file;
              LoggerArtifacts.EvWriteFile "train.jsonl" "{}";
              LoggerArtifacts.EvMakeTable "{}"]
          ++ table
          ++ [LoggerArtifacts.EvUseArtifact
                [Logger.JStr "file-1"; Logger.JStr "latest"]]).
Proof.
  destruct (ArtifactFacts.log_artifact_inputs_uses_artifact_without_table
              render path_name path_stem downloads no_table train_file "train"
              "training_files" [] (Logger.JStr "file-1") "train.jsonl" "{}")
    as (table & Hrun & _); try reflexivity.
  exists table. exact Hrun.
Defined.

End MoreInstances.
